(** * AiKA backend: retrieval-and-ranking orchestration

    A shallow embedding of the orchestration core of the AiKA backend
    ([src/api/core/onace_categories.py], [src/api/core/link_detector.py],
    [src/api/core/rag.py]) together with the properties its specification
    states about it.

    Conventions of the embedding.
    - A Python [str] is a [string]; a character [ascii] stands for the code
      point of the same number, so the embedding covers texts whose code
      points are below 256.
    - A Python [set] of strings is a [gset string], a [dict] read only by key
      is a [gmap], a [dict] whose insertion order is observed is an
      association list.
    - A Python [int] is a [Z]; a finite [float] score is the rational [Q] it
      denotes, and the key [float('inf')] is [None].
    - A block that may raise is a computation in the [outcome] monad;
      [try ... except Exception] is a [match] on its result. *)

From Stdlib Require Import Ascii String QArith Sorted Permutation.
From stdpp Require Import gmap strings list pretty.
Close Scope Q_scope.

#[local] Set Warnings "-clear-no-such-hyp".

Local Open Scope string_scope.

(** ** Exceptions, external services and evidence records *)

Module Py.

Inductive exception :=
| KeyError
| AttributeError
| IndexError
| ServiceError.

(** The result of running a block of code that may raise. *)
Inductive outcome (A : Type) :=
| Returned (a : A)
| Raised (e : exception).
Arguments Returned {A} a.
Arguments Raised {A} e.

Definition bind {A B} (m : outcome A) (k : A -> outcome B) : outcome B :=
  match m with
  | Returned a => k a
  | Raised e => Raised e
  end.

(** [l[:k]] for a list: a negative bound counts from the end. *)
Definition slice_to {A} (l : list A) (k : Z) : list A :=
  if (0 <=? k)%Z then firstn (Z.to_nat k) l
  else firstn (length l - Z.to_nat (- k)) l.

(** [l[i]] *)
Definition index {A} (l : list A) (i : nat) : outcome A :=
  match nth_error l i with
  | Some a => Returned a
  | None => Raised IndexError
  end.

End Py.

(** [outcome] is a monad; [x ← m; k] runs [m] and stops at the first
    exception. *)
#[global] Instance outcome_ret : MRet Py.outcome := @Py.Returned.
#[global] Instance outcome_bind : MBind Py.outcome :=
  fun A B k m => Py.bind m k.

(** ** Python string primitives *)

Module Str.

(** [c.isspace()] for a code point below 256. *)
Definition isspace (c : ascii) : bool :=
  let n := nat_of_ascii c in
  (((9 <=? n) && (n <=? 13)) || ((28 <=? n) && (n <=? 32))
   || (n =? 133) || (n =? 160))%nat.

(** [c.isdigit()] for a code point below 256: the decimal digits and the
    superscripts two, three and one. *)
Definition isdigit (c : ascii) : bool :=
  let n := nat_of_ascii c in
  (((48 <=? n) && (n <=? 57)) || (n =? 178) || (n =? 179) || (n =? 185))%nat.

(** [c.lower()] for a code point below 256. *)
Definition lower_char (c : ascii) : ascii :=
  let n := nat_of_ascii c in
  if (((65 <=? n) && (n <=? 90))
      || ((192 <=? n) && (n <=? 222) && negb (n =? 215)))%nat
  then ascii_of_nat (n + 32) else c.

Fixpoint lower (s : string) : string :=
  match s with
  | EmptyString => EmptyString
  | String c s' => String (lower_char c) (lower s')
  end.

Fixpoint lstrip (s : string) : string :=
  match s with
  | EmptyString => EmptyString
  | String c s' => if isspace c then lstrip s' else s
  end.

Fixpoint rstrip (s : string) : string :=
  match s with
  | EmptyString => EmptyString
  | String c s' =>
      match rstrip s' with
      | EmptyString => if isspace c then EmptyString else String c EmptyString
      | r => String c r
      end
  end.

(** [s.strip()] *)
Definition strip (s : string) : string := rstrip (lstrip s).

(** [s.split(sep)] for a one-character separator: never an empty list. *)
Fixpoint split (sep : ascii) (s : string) : list string :=
  match s with
  | EmptyString => [EmptyString]
  | String c s' =>
      if Ascii.eqb c sep then EmptyString :: split sep s'
      else match split sep s' with
           | h :: t => String c h :: t
           | [] => [String c EmptyString]
           end
  end.

(** [s.split(sep, 1)]: at most one cut, at the first separator. *)
Fixpoint split1 (sep : ascii) (s : string) : list string :=
  match s with
  | EmptyString => [EmptyString]
  | String c s' =>
      if Ascii.eqb c sep then [EmptyString; s']
      else match split1 sep s' with
           | h :: t => String c h :: t
           | [] => [String c EmptyString]
           end
  end.

(** [c in s] for a character [c]. *)
Fixpoint contains (c : ascii) (s : string) : bool :=
  match s with
  | EmptyString => false
  | String d s' => Ascii.eqb d c || contains c s'
  end.

(** [s[:n]] for [n >= 0]. *)
Fixpoint take (n : nat) (s : string) : string :=
  match n, s with
  | S n', String c s' => String c (take n' s')
  | _, _ => EmptyString
  end.

Definition startswith (c : ascii) (s : string) : bool :=
  match s with
  | String d _ => Ascii.eqb d c
  | EmptyString => false
  end.

Fixpoint endswith (c : ascii) (s : string) : bool :=
  match s with
  | EmptyString => false
  | String d EmptyString => Ascii.eqb d c
  | String _ s' => endswith c s'
  end.

Fixpoint drop_last (s : string) : string :=
  match s with
  | EmptyString => EmptyString
  | String _ EmptyString => EmptyString
  | String c s' => String c (drop_last s')
  end.

(** [s[1:-1]] *)
Definition slice_1_m1 (s : string) : string :=
  match s with
  | EmptyString => EmptyString
  | String _ s' => drop_last s'
  end.

(** [sep.join(l)] *)
Fixpoint join (sep : string) (l : list string) : string :=
  match l with
  | [] => EmptyString
  | [s] => s
  | s :: l' => String.append s (String.append sep (join sep l'))
  end.

(** Truth value of a string: [if s:]. *)
Definition truthy (s : string) : bool :=
  match s with EmptyString => false | _ => true end.

End Str.

(** ** ONACE industry classification ([onace_categories.py]) *)

Module Onace.

Record OnaceCategory := mkOnaceCategory {
  code : string;
  name_german : string;
  name_english : string;
  description : string
}.

(** The capital letters O and U with diaeresis, code points 214 and 220, of
    the German names. *)
Definition O_uml : string := String (ascii_of_nat 214) EmptyString.
Definition U_uml : string := String (ascii_of_nat 220) EmptyString.

(** The class attribute [OnaceManager.ONACE_CATEGORIES]. *)
Definition ONACE_CATEGORIES : gmap string OnaceCategory :=
  list_to_map [
    ("0", mkOnaceCategory "0" "Allgemein" "General" "Applies to all industries");
    ("A", mkOnaceCategory "A" "LAND- UND FORSTWIRTSCHAFT, FISCHEREI (01 - 03)" "AGRICULTURE, FORESTRY, AND FISHING (01 - 03)" "");
    ("B", mkOnaceCategory "B" "BERGBAU UND GEWINNUNG VON STEINEN UND ERDEN (05 - 09)" "MINING AND QUARRYING (05 - 09)" "");
    ("C", mkOnaceCategory "C" "HERSTELLUNG VON WAREN (10 - 33)" "MANUFACTURING (10 - 33)" "");
    ("D", mkOnaceCategory "D" "ENERGIEVERSORGUNG (35)" "ENERGY SUPPLY (35)" "");
    ("E", mkOnaceCategory "E" "WASSERVERSORGUNG; ABWASSER- UND ABFALLENTSORGUNG UND BESEITIGUNG VON UMWELTVERSCHMUTZUNGEN (36 - 39)" "WATER SUPPLY; SEWAGE AND WASTE DISPOSAL AND REMOVAL OF ENVIRONMENTAL POLLUTION (36 - 39)" "");
    ("F", mkOnaceCategory "F" "BAU (41 - 43)" "CONSTRUCTION (41 - 43)" "");
    ("G", mkOnaceCategory "G" "HANDEL (46 - 47)" "TRADE (46 - 47)" "");
    ("H", mkOnaceCategory "H" "VERKEHR UND LAGEREI (49 - 53)" "TRANSPORT AND STORAGE (49 - 53)" "");
    ("I", mkOnaceCategory "I" "BEHERBERGUNG UND GASTRONOMIE (55 - 56)" "ACCOMMODATION AND CATERING (55 - 56)" "");
    ("J", mkOnaceCategory "J" "VERLAGSWESEN, RUNDFUNK SOWIE ERSTELLUNG UND VERBREITUNG VON MEDIENINHALTEN (58 - 60)" "PUBLISHING, BROADCASTING AND PRODUCTION AND DISTRIBUTION OF MEDIA CONTENT (58 - 60)" "");
    ("K", mkOnaceCategory "K" "ERBRINGUNG VON FINANZ- UND VERSICHERUNGSDIENSTLEISTUNGEN (64 - 66)" "FINANCIAL AND INSURANCE SERVICES (64 - 66)" "");
    ("L", mkOnaceCategory "L" (String.concat U_uml ["GRUNDST"; "CKS- UND WOHNUNGSWESEN (68)"]) "REAL ESTATE ACTIVITIES (68)" "");
    ("M", mkOnaceCategory "M" "ERBRINGUNG VON FREIBERUFLICHEN, WISSENSCHAFTLICHEN UND TECHNISCHEN DIENSTLEISTUNGEN (69 - 75)" "PROFESSIONAL, SCIENTIFIC AND TECHNICAL ACTIVITIES (69 - 75)" "");
    ("N", mkOnaceCategory "N" "ERBRINGUNG VON SONSTIGEN WIRTSCHAFTLICHEN DIENSTLEISTUNGEN (77 - 82)" "ADMINISTRATIVE AND SUPPORT SERVICE ACTIVITIES (77 - 82)" "");
    ("O", mkOnaceCategory "O" (String.append O_uml "FFENTLICHE VERWALTUNG, VERTEIDIGUNG; SOZIALVERSICHERUNG (84)") "PUBLIC ADMINISTRATION, DEFENCE; COMPULSORY SOCIAL SECURITY (84)" "");
    ("P", mkOnaceCategory "P" "ERZIEHUNG UND UNTERRICHT (85)" "EDUCATION (85)" "");
    ("Q", mkOnaceCategory "Q" "GESUNDHEITSWESEN UND SOZIALE DIENSTLEISTUNGEN (86 - 88)" "HUMAN HEALTH AND SOCIAL WORK ACTIVITIES (86 - 88)" "");
    ("R", mkOnaceCategory "R" "KUNST, UNTERHALTUNG UND ERHOLUNG (90 - 93)" "ARTS, ENTERTAINMENT AND RECREATION (90 - 93)" "");
    ("S", mkOnaceCategory "S" "ERBRINGUNG VON SONSTIGEN DIENSTLEISTUNGEN (94 - 96)" "OTHER SERVICE ACTIVITIES (94 - 96)" "");
    ("T", mkOnaceCategory "T" (String.concat U_uml ["PRIVATE HAUSHALTE MIT HAUSHALTSPERSONAL; ERBRINGUNG VON DIENSTLEISTUNGEN F"; "R PRIVATE HAUSHALTE ALS ARBEITGEBER (97 - 98)"]) "ACTIVITIES OF HOUSEHOLDS AS EMPLOYERS; UNDIFFERENTIATED GOODS- AND SERVICES-PRODUCING ACTIVITIES OF HOUSEHOLDS FOR OWN USE (97 - 98)" "");
    ("U", mkOnaceCategory "U" (String.concat O_uml ["EXTERRITORIALE ORGANISATIONEN UND K"; "RPERSCHAFTEN (99)"]) "ACTIVITIES OF EXTRATERRITORIAL ORGANISATIONS AND BODIES (99)" "")
  ].

(** [code in cls.ONACE_CATEGORIES] *)
Definition in_catalog (code : string) : bool :=
  bool_decide (is_Some (ONACE_CATEGORIES !! code)).

(** [OnaceManager.get_category] *)
Definition get_category (code : string) : option OnaceCategory :=
  ONACE_CATEGORIES !! code.

(** One turn of the loop of [parse_onace_codes]: the token is trimmed and
    added when it is non-empty and a key of the catalog. *)
Definition parse_step (codes : gset string) (code : string) : gset string :=
  let code := Str.strip code in
  if Str.truthy code && in_catalog code then codes ∪ {[ code ]} else codes.

(** [OnaceManager.parse_onace_codes] *)
Definition parse_onace_codes (onace_string : string) : gset string :=
  if negb (Str.truthy onace_string) || String.eqb onace_string "nan"
  then {[ "0" ]}
  else
    let codes := fold_left parse_step (Str.split "," onace_string) ∅ in
    if decide (codes = ∅) then codes ∪ {[ "0" ]} else codes.

(** [OnaceManager.is_document_relevant] *)
Definition is_document_relevant
    (document_onace_codes : gset string) (user_onace_code : string) : bool :=
  if bool_decide ("0" ∈ document_onace_codes) then true
  else bool_decide (user_onace_code ∈ document_onace_codes).

(** A document record is a dictionary with string values. *)
Abbreviation document := (gmap string string).

(** [doc.get('onace_codes', '0')] *)
Definition doc_onace_string (doc : document) : string :=
  default "0" (doc !! "onace_codes").

(** [OnaceManager.get_relevant_documents]: the loop appends the relevant
    documents in the order of the input. *)
Definition get_relevant_documents
    (documents : list document) (user_onace_code : string) : list document :=
  fold_left
    (fun relevant_docs doc =>
       let doc_onace_codes := parse_onace_codes (doc_onace_string doc) in
       if is_document_relevant doc_onace_codes user_onace_code
       then (relevant_docs ++ [doc])%list else relevant_docs)
    documents [].

(** [OnaceManager.get_all_categories]: a copy of the table. *)
Definition get_all_categories : gmap string OnaceCategory := ONACE_CATEGORIES.

(** One turn of the comprehension of [get_category_names]: a code of the
    catalog is entered with its English name, [cls.ONACE_CATEGORIES[code]]
    raising on an absent key. *)
Definition names_step (names : Py.outcome (gmap string string)) (code : string)
  : Py.outcome (gmap string string) :=
  names ← names;
  if in_catalog code
  then match ONACE_CATEGORIES !! code with
       | Some category => mret (<[code := name_english category]> names)
       | None => Py.Raised Py.KeyError
       end
  else mret names.

(** [OnaceManager.get_category_names]: the dictionary comprehension over
    the codes of the set. *)
Definition get_category_names (codes : gset string)
  : Py.outcome (gmap string string) :=
  fold_left names_step (elements codes) (mret ∅).

(** The catalog of the specification: the code "0" and the letters A to U. *)
Definition catalog_codes : gset string :=
  list_to_set ["0"; "A"; "B"; "C"; "D"; "E"; "F"; "G"; "H"; "I"; "J"; "K";
               "L"; "M"; "N"; "O"; "P"; "Q"; "R"; "S"; "T"; "U"].

(** [parseCodes] in the words of the specification: split on commas, trim,
    keep the tokens of the catalog, and fall back to the general code. *)
Definition spec_parseCodes (raw : string) : gset string :=
  let valid : gset string :=
    list_to_set (List.filter (fun t => bool_decide (t ∈ catalog_codes))
                             (List.map Str.strip (Str.split "," raw))) in
  if decide (raw = "" ∨ raw = "nan" ∨ valid = ∅) then {[ "0" ]} else valid.

End Onace.

(** ** The ONACE router ([routers/onace.py]) *)

Module OnaceRouter.

Import Py.

(** The dictionary returned by [get_onace_category]: an error message, or
    the four fields of the category. *)
Inductive category_reply :=
| NotFound (error : string)
| Found (code name_german name_english description : string).

(** [get_onace_category]: an instance of [OnaceCategory] is always true, so
    [not category] holds for [None] only. *)
Definition get_onace_category (code : string) : category_reply :=
  match Onace.get_category code with
  | None =>
      NotFound (String.append "Category " (String.append code " not found"))
  | Some category =>
      Found (Onace.code category) (Onace.name_german category)
            (Onace.name_english category) (Onace.description category)
  end.

(** The dictionary returned by the route [parse-codes].  [list(codes)] lists
    the set in an order that Python leaves open. *)
Record parse_reply := mkParseReply {
  codes : list string;
  names : gmap string string;
  original_string : string
}.

(** The route [parse_onace_codes]. *)
Definition parse_onace_codes (onace_string : string) : outcome parse_reply :=
  let codes := Onace.parse_onace_codes onace_string in
  names ← Onace.get_category_names codes;
  mret {| codes := elements codes;
          names := names;
          original_string := onace_string |}.

End OnaceRouter.

(** ** Evidence records and the external collaborators *)

Module Data.

Import Py.

(** The [metadata] dictionary of a chunk, with the two keys the core reads. *)
Record chunk_metadata := mkMetadata {
  filename : option string;
  is_vsme : option bool
}.

(** A chunk is a dictionary; each key the core reads may be absent.  A score
    is a finite distance. *)
Record Chunk := mkChunk {
  chunk_id : option string;
  text : option string;
  score : option Q;
  metadata : option chunk_metadata
}.

(** A call of [client.chat.completions.create] followed by the read of
    [response.choices[0].message.content]: the call raises, or the content
    is [None], or it is a text. *)
Inductive completion :=
| CallFailure
| NoContent
| Content (s : string).

(** The three requests sent to the completion service.  The instruction text
    of each is fixed in the source; a request is told apart by its kind and
    by the values substituted into it. *)
Inductive chat_request :=
| ExpansionRequest (query : string) (num_expansions : Z)
| SynthesisRequest (model : string) (temperature : Q)
    (meta_information conversation_history : option string)
    (context query : string)
| ClassificationRequest (query industry_context context_text : string).

(** The collaborators of one request: the completion service and
    [embeddings.search_all_documents]. *)
Record services := mkServices {
  chat : chat_request -> completion;
  search_all_documents : string -> Z -> string -> outcome (list Chunk)
}.

(** [response = await client.chat.completions.create(...)] followed by
    [response.choices[0].message.content]. *)
Definition create (svc : services) (r : chat_request) : outcome (option string) :=
  match chat svc r with
  | CallFailure => Raised ServiceError
  | NoContent => Returned None
  | Content s => Returned (Some s)
  end.

(** A method call on a value that is a string or [None]. *)
Definition as_str (content : option string) : outcome string :=
  match content with
  | Some s => Returned s
  | None => Raised AttributeError
  end.

End Data.

(** ** Link detection ([link_detector.py]) *)

Module LinkDetector.

Import Py Data.

(** [self.manager_links] *)
Definition manager_links : gmap string string :=
  list_to_map [
    ("water", "https://maps.wisa.bmluk.gv.at/emreg");
    ("industry", "https://industry.eea.europa.eu/explore/explore-data-map/map");
    ("nature", "https://natura2000.eea.europa.eu")
  ].

(** The table [industry_contexts] of [_get_industry_context]. *)
Definition industry_contexts : gmap string string :=
  list_to_map [
    ("0", "General - All industries and sectors");
    ("A", "Agriculture, Forestry and Fishing - Farming, crop production, livestock, forestry");
    ("B", "Mining and Quarrying - Extraction of minerals, oil, gas");
    ("C", "Manufacturing - Production of goods, factories, industrial facilities");
    ("D", "Electricity, Gas, Steam and Air Conditioning Supply - Energy production");
    ("E", "Water Supply; Sewerage, Waste Management and Remediation Activities - Water management, waste treatment");
    ("F", "Construction - Building, infrastructure, construction activities");
    ("G", "Wholesale and Retail Trade; Repair of Motor Vehicles and Motorcycles - Trading, retail");
    ("H", "Transportation and Storage - Logistics, transport, shipping");
    ("I", "Accommodation and Food Service Activities - Hotels, restaurants, tourism");
    ("J", "Information and Communication - IT, telecommunications, media");
    ("K", "Financial and Insurance Activities - Banking, insurance, financial services");
    ("L", "Real Estate Activities - Property, real estate");
    ("M", "Professional, Scientific and Technical Activities - Consulting, research, professional services");
    ("N", "Administrative and Support Service Activities - Administrative services");
    ("O", "Public Administration and Defence; Compulsory Social Security - Government, public sector");
    ("P", "Education - Schools, universities, training");
    ("Q", "Human Health and Social Work Activities - Healthcare, social services");
    ("R", "Arts, Entertainment and Recreation - Entertainment, culture, sports");
    ("S", "Other Service Activities - Other services");
    ("T", "Activities of Households as Employers; Undifferentiated Goods- and Services-Producing Activities of Households for Own Use");
    ("U", "Activities of Extraterritorial Organisations and Bodies - International organizations")
  ].

(** [LinkDetector._get_industry_context] *)
Definition _get_industry_context (onace_code : string) : string :=
  default (String.append "Industry code "
             (String.append onace_code " - Unknown sector"))
          (industry_contexts !! onace_code).

(** The context prepared from the chunks: the first 200 characters of the
    text of each of the first three chunks, joined by a space. *)
Definition context_text (chunks : list Chunk) : string :=
  match chunks with
  | [] => ""
  | _ =>
      let chunk_texts :=
        List.map (fun chunk => Str.take 200 (default "" (text chunk)))
                 (firstn 3 chunks) in
      Str.join " " chunk_texts
  end.

(** The closed list [["water", "industry", "nature"]] of the validation. *)
Definition topics : list string := ["water"; "industry"; "nature"].

(** The classification read from a reply of the service: the content,
    trimmed and in lower case, when it is one of the three topics. *)
Definition classification_of (reply : completion) : option string :=
  match reply with
  | Content s =>
      if bool_decide (Str.lower (Str.strip s) ∈ topics)
      then Some (Str.lower (Str.strip s)) else None
  | _ => None
  end.

(** The body of the [try] block of [_classify_query_intent]: the call, the
    normalisation [content.strip().lower()] and the validation. *)
Definition classify_body (svc : services)
    (query : string) (chunks : list Chunk) (user_onace_code : string)
  : outcome (option string) :=
  let industry_context := _get_industry_context user_onace_code in
  content ← create svc
    (ClassificationRequest query industry_context (context_text chunks));
  stripped ← as_str content;
  let classification := Str.lower (Str.strip stripped) in
  if bool_decide (classification ∈ topics)
  then mret (Some classification)
  else mret None.

(** [LinkDetector._classify_query_intent]: any exception of the body is
    caught and turned into [None]. *)
Definition _classify_query_intent (svc : services)
    (query : string) (chunks : list Chunk) (user_onace_code : string)
  : option string :=
  match classify_body svc query chunks user_onace_code with
  | Returned topic => topic
  | Raised _ => None
  end.

(** The body of the [try] block of [get_relevant_links]. *)
Definition links_body (svc : services)
    (query : string) (chunks : list Chunk) (user_onace_code : string)
  : outcome (list string) :=
  match _classify_query_intent svc query chunks user_onace_code with
  | Some topic =>
      if Str.truthy topic && bool_decide (is_Some (manager_links !! topic))
      then match manager_links !! topic with
           | Some url => mret [url]
           | None => Raised KeyError
           end
      else mret []
  | None => mret []
  end.

(** [LinkDetector.get_relevant_links] *)
Definition get_relevant_links (svc : services)
    (query : string) (chunks : list Chunk) (user_onace_code : string)
  : list string :=
  match links_body svc query chunks user_onace_code with
  | Returned links => links
  | Raised _ => []
  end.

(** [LinkDetector.get_links_for_topic] *)
Definition get_links_for_topic (topic : string) : outcome (list string) :=
  let topic_lower := Str.lower topic in
  if bool_decide (is_Some (manager_links !! topic_lower))
  then match manager_links !! topic_lower with
       | Some url => mret [url]
       | None => Raised KeyError
       end
  else mret [].

End LinkDetector.

(** ** Answer generation ([rag.py]) *)

Module Rag.

Import Py Data.

Definition nl : string := String (ascii_of_nat 10) EmptyString.
Definition double_quote : ascii := ascii_of_nat 34.
Definition single_quote : ascii := ascii_of_nat 39.

(** *** [format_context] *)

(** The text of one chunk of the context.  [metadata.get] raises when the
    chunk has no metadata (the default is then a string), [chunk['text']]
    raises when it has no text. *)
Definition format_chunk (i : nat) (chunk : Chunk) : outcome string :=
  metadata ← match metadata chunk with
             | Some m => Returned m
             | None => Raised AttributeError
             end;
  let source := default "Unknown source" (filename metadata) in
  body ← match text chunk with
         | Some t => Returned t
         | None => Raised KeyError
         end;
  mret (String.concat ""
          ["[Chunk "; pretty (i + 1)%nat; " - Source: "; source; "]"; nl;
           body; nl]).

Fixpoint format_chunks (i : nat) (chunks : list Chunk)
  : outcome (list string) :=
  match chunks with
  | [] => mret []
  | chunk :: rest =>
      s ← format_chunk i chunk;
      l ← format_chunks (S i) rest;
      mret (s :: l)
  end.

Definition format_context (chunks : list Chunk) : outcome string :=
  match chunks with
  | [] => mret ""
  | _ =>
      formatted_chunks ← format_chunks 0 chunks;
      mret (Str.join nl formatted_chunks)
  end.

(** *** [expand_query] *)

(** The treatment of one non-empty trimmed line, whose first character is
    [c0]: the numbering is removed, then a pair of double quotes, then a pair
    of single quotes. *)
Definition clean (c0 : ascii) (clean_line : string) : outcome string :=
  clean_line ←
    (if Str.isdigit c0 && Str.contains "." (Str.take 3 clean_line)
     then
       rest ← index (Str.split1 "." clean_line) 1;
       mret (Str.strip rest)
     else mret clean_line);
  let clean_line :=
    if Str.startswith double_quote clean_line
       && Str.endswith double_quote clean_line
    then Str.slice_1_m1 clean_line else clean_line in
  let clean_line :=
    if Str.startswith single_quote clean_line
       && Str.endswith single_quote clean_line
    then Str.slice_1_m1 clean_line else clean_line in
  mret clean_line.

(** One turn of the loop over the lines of the reply. *)
Definition expansion_step (expanded_queries : list string) (line : string)
  : outcome (list string) :=
  match Str.strip line with
  | EmptyString => mret expanded_queries
  | String c0 _ as clean_line =>
      q ← clean c0 clean_line;
      mret (expanded_queries ++ [q])%list
  end.

Fixpoint expansion_loop (expanded_queries : list string) (lines : list string)
  : outcome (list string) :=
  match lines with
  | [] => mret expanded_queries
  | line :: rest =>
      expanded_queries ← expansion_step expanded_queries line;
      expansion_loop expanded_queries rest
  end.

(** The body of the [try] block of [expand_query]. *)
Definition expand_body (svc : services) (query : string) (num_expansions : Z)
  : outcome (list string) :=
  content ← create svc (ExpansionRequest query num_expansions);
  reply ← as_str content;
  let expanded_text := Str.strip reply in
  expanded_queries ← expansion_loop [] (Str.split (ascii_of_nat 10) expanded_text);
  mret (slice_to expanded_queries num_expansions).

(** [expand_query]: any exception of the body gives the empty list. *)
Definition expand_query (svc : services) (query : string) (num_expansions : Z)
  : list string :=
  match expand_body svc query num_expansions with
  | Returned expanded_queries => expanded_queries
  | Raised _ => []
  end.

(** The same treatment as total functions, for the statements about
    [expand_query]: the text after the first [sep], the removal of the
    numbering, the removal of a pair of quotes. *)
Fixpoint after_first (sep : ascii) (s : string) : string :=
  match s with
  | EmptyString => EmptyString
  | String c s' => if Ascii.eqb c sep then s' else after_first sep s'
  end.

Definition strip_numbering (line : string) : string :=
  match line with
  | EmptyString => EmptyString
  | String c0 _ =>
      if Str.isdigit c0 && Str.contains "." (Str.take 3 line)
      then Str.strip (after_first "." line) else line
  end.

Definition strip_quotes (quote : ascii) (s : string) : string :=
  if Str.startswith quote s && Str.endswith quote s
  then Str.slice_1_m1 s else s.

Definition clean_line (line : string) : string :=
  strip_quotes single_quote
    (strip_quotes double_quote (strip_numbering line)).

(** The lines of a reply that are not blank, trimmed. *)
Definition reply_lines (reply : string) : list string :=
  List.filter Str.truthy
    (List.map Str.strip (Str.split (ascii_of_nat 10) (Str.strip reply))).

(** *** The stages of [generate_answer] *)

(** [asyncio.gather] over the search tasks: the list of the results in the
    order of the tasks, or the exception of a task that raised. *)
Fixpoint gather {A} (tasks : list (outcome A)) : outcome (list A) :=
  match tasks with
  | [] => mret []
  | task :: rest =>
      a ← task;
      l ← gather rest;
      mret (a :: l)
  end.

(** One search per query, gathered, and the lists flattened. *)
Definition all_chunks (svc : services)
    (search_queries : list string) (top_k : Z) (user_onace_code : string)
  : outcome (list Chunk) :=
  let search_tasks :=
    List.map (fun eq => search_all_documents svc eq top_k user_onace_code)
             search_queries in
  list_of_chunk_lists ← gather search_tasks;
  mret (concat list_of_chunk_lists).

(** The sort key [x.get("score", float('inf'))]: [None] is infinity. *)
Definition score_key (x : Chunk) : option Q := score x.

(** [a < b] on sort keys. *)
Definition key_lt (a b : option Q) : bool :=
  match a, b with
  | Some x, Some y => negb (Qle_bool y x)
  | Some _, None => true
  | None, _ => false
  end.

(** [list.sort(key=...)] is a stable sort that compares keys with [<]; on a
    total preorder its result is the one of the stable insertion sort. *)
Fixpoint insert_by_score (x : Chunk) (l : list Chunk) : list Chunk :=
  match l with
  | [] => [x]
  | y :: l' =>
      if key_lt (score_key y) (score_key x)
      then y :: insert_by_score x l'
      else x :: y :: l'
  end.

Fixpoint sort_by_score (l : list Chunk) : list Chunk :=
  match l with
  | [] => []
  | x :: l' => insert_by_score x (sort_by_score l')
  end.

(** [a <= b] on sort keys, and the lists in ascending order of score. *)
Definition key_le (a b : option Q) : bool := negb (key_lt b a).

Definition score_le (x y : Chunk) : Prop :=
  key_le (score_key x) (score_key y) = true.

Definition sorted_by_score (l : list Chunk) : Prop :=
  StronglySorted score_le l.

(** The deduplication key [chunk.get("text", "")]. *)
Definition text_key (chunk : Chunk) : string := default "" (text chunk).

(** [unique_chunks_dict]: a dictionary in insertion order. *)
Definition dict_has (d : list (string * Chunk)) (k : string) : bool :=
  existsb (fun kv => String.eqb kv.1 k) d.

Definition dedup_step (unique_chunks_dict : list (string * Chunk))
    (chunk : Chunk) : list (string * Chunk) :=
  if negb (dict_has unique_chunks_dict (text_key chunk))
  then (unique_chunks_dict ++ [(text_key chunk, chunk)])%list
  else unique_chunks_dict.

(** The pool is sorted by score, then the first chunk of each text is kept:
    [list(unique_chunks_dict.values())]. *)
Definition unique_chunks (all_chunks : list Chunk) : list Chunk :=
  let all_chunks := sort_by_score all_chunks in
  let unique_chunks_dict := fold_left dedup_step all_chunks [] in
  List.map snd unique_chunks_dict.

(** The deduplication in the words of the specification: going through the
    list, a chunk is kept when no chunk before it (nor a text of [seen]) has
    its text. *)
Fixpoint first_of_each_text (seen : list string) (l : list Chunk)
  : list Chunk :=
  match l with
  | [] => []
  | x :: l' =>
      if bool_decide (text_key x ∈ seen) then first_of_each_text seen l'
      else x :: first_of_each_text (text_key x :: seen) l'
  end.

(** [chunk.get("metadata", {}).get("is_vsme", False)] *)
Definition vsme_flag (chunk : Chunk) : bool :=
  default false (is_vsme (default (mkMetadata None None) (metadata chunk))).

Definition vsme_limit (top_k : Z) : Z := Z.max 1 (top_k / 2).

(** The VSME chunks and the others, each sorted by score, and the slices
    taken from each. *)
Definition top_unique_chunks (unique_chunks : list Chunk) (top_k : Z)
  : list Chunk :=
  let vsme_chunks := List.filter vsme_flag unique_chunks in
  let other_chunks :=
    List.filter (fun chunk => negb (vsme_flag chunk)) unique_chunks in
  let vsme_chunks := sort_by_score vsme_chunks in
  let other_chunks := sort_by_score other_chunks in
  (slice_to vsme_chunks (vsme_limit top_k)
   ++ slice_to other_chunks (top_k - vsme_limit top_k))%list.

(** [chunk.get("metadata", {}).get("filename", "Unknown source")] *)
Definition source_of (chunk : Chunk) : string :=
  default "Unknown source"
          (filename (default (mkMetadata None None) (metadata chunk))).

(** *** [generate_answer] *)

(** The dictionary returned by [generate_answer]. *)
Record result := mkResult {
  answer : option string;
  chunks : list Chunk;
  expanded_queries : list string;
  sources : list string;
  relevant_links : list string;
  success : bool
}.

(** The result of the [except] branch. *)
Definition apology : result :=
  {| answer := Some "I apologize, but I encountered an error while processing your request.";
     chunks := [];
     expanded_queries := [];
     sources := [];
     relevant_links := [];
     success := false |}.

(** An optional text that counts when it is present and not empty. *)
Definition nonempty (s : option string) : option string :=
  match s with
  | Some t => if Str.truthy t then Some t else None
  | None => None
  end.

(** [meta_information and meta_information.strip()]: the text counts when
    it is more than white space. *)
Definition nonblank (s : option string) : option string :=
  match nonempty s with
  | Some t => if Str.truthy (Str.strip t) then Some t else None
  | None => None
  end.

(** The body of the [try] block of [generate_answer]. *)
Definition generate_answer_body (svc : services)
    (query : string) (conversation_history : option string) (top_k : Z)
    (model : string) (temperature : Q) (meta_information : option string)
    (user_onace_code : string) : outcome result :=
  let expanded_queries := expand_query svc query 4 in
  let search_queries := query :: expanded_queries in
  all_chunks ← all_chunks svc search_queries top_k user_onace_code;
  let unique_chunks := unique_chunks all_chunks in
  let top_unique_chunks := top_unique_chunks unique_chunks top_k in
  context ← format_context top_unique_chunks;
  let meta_information := nonblank meta_information in
  let conversation_history := nonempty conversation_history in
  content ← create svc
    (SynthesisRequest model temperature meta_information conversation_history
                      context query);
  let relevant_links :=
    LinkDetector.get_relevant_links svc query top_unique_chunks
                                    user_onace_code in
  mret {| answer := content;
          chunks := top_unique_chunks;
          expanded_queries := expanded_queries;
          sources := List.map source_of top_unique_chunks;
          relevant_links := relevant_links;
          success := true |}.

(** [generate_answer]: any exception of the body gives the apology. *)
Definition generate_answer (svc : services)
    (query : string) (conversation_history : option string) (top_k : Z)
    (model : string) (temperature : Q) (meta_information : option string)
    (user_onace_code : string) : result :=
  match generate_answer_body svc query conversation_history top_k model
          temperature meta_information user_onace_code with
  | Returned r => r
  | Raised _ => apology
  end.

(** *** [deduplicate_chunks] *)

(** One turn of the loop of [deduplicate_chunks]: a chunk is entered under
    its [chunk_id] when the id is present, not empty and new. *)
Definition id_step (unique_chunks : list (string * Chunk)) (chunk : Chunk)
  : list (string * Chunk) :=
  match chunk_id chunk with
  | Some chunk_id =>
      if Str.truthy chunk_id && negb (dict_has unique_chunks chunk_id)
      then (unique_chunks ++ [(chunk_id, chunk)])%list
      else unique_chunks
  | None => unique_chunks
  end.

(** [deduplicate_chunks]: [list(unique_chunks.values())]. *)
Definition deduplicate_chunks (chunks : list Chunk) : list Chunk :=
  List.map snd (fold_left id_step chunks []).

(** [deduplicate_chunks] in the words of its docstring: going through the
    list, a chunk is kept when it has an id, not empty, that no chunk before
    it (nor an id of [seen]) has. *)
Fixpoint first_of_each_id (seen : list string) (l : list Chunk)
  : list Chunk :=
  match l with
  | [] => []
  | x :: l' =>
      match chunk_id x with
      | Some id =>
          if Str.truthy id && negb (bool_decide (id ∈ seen))
          then x :: first_of_each_id (id :: seen) l'
          else first_of_each_id seen l'
      | None => first_of_each_id seen l'
      end
  end.

End Rag.

(** * Properties *)

(** ** The industry taxonomy *)

Module OnaceFacts.

Import Onace.

Lemma dom_ONACE_CATEGORIES : dom ONACE_CATEGORIES = catalog_codes.
Proof. vm_compute. reflexivity. Qed.

Lemma in_catalog_spec (code : string) :
  in_catalog code = bool_decide (code ∈ catalog_codes).
Proof.
  unfold in_catalog. apply bool_decide_ext.
  rewrite <- dom_ONACE_CATEGORIES. symmetry. apply elem_of_dom.
Qed.

Lemma empty_not_in_catalog : "" ∉ catalog_codes.
Proof. apply (bool_decide_unpack _). vm_compute. exact I. Qed.

Lemma parse_step_spec (codes : gset string) (code : string) :
  parse_step codes code =
  if bool_decide (Str.strip code ∈ catalog_codes)
  then codes ∪ {[ Str.strip code ]} else codes.
Proof.
  unfold parse_step. rewrite in_catalog_spec.
  destruct (Str.strip code) eqn:E; simpl; [|reflexivity].
  rewrite bool_decide_eq_false_2; [reflexivity | apply empty_not_in_catalog].
Qed.

Lemma parse_loop_spec (tokens : list string) (codes : gset string) :
  fold_left parse_step tokens codes =
  codes ∪ list_to_set
            (List.filter (fun t => bool_decide (t ∈ catalog_codes))
                         (List.map Str.strip tokens)).
Proof.
  revert codes. induction tokens as [|t tokens IH]; intros codes; simpl.
  - set_solver.
  - rewrite IH, parse_step_spec.
    destruct (bool_decide (Str.strip t ∈ catalog_codes)); simpl; set_solver.
Qed.

(** The loop of [get_relevant_documents] is a filter that keeps the order. *)
Lemma get_relevant_documents_filter
    (documents : list document) (user_onace_code : string) :
  get_relevant_documents documents user_onace_code =
  List.filter
    (fun doc => is_document_relevant (parse_onace_codes (doc_onace_string doc))
                                     user_onace_code)
    documents.
Proof.
  unfold get_relevant_documents.
  enough (H : forall acc,
             fold_left
               (fun relevant_docs doc =>
                  if is_document_relevant
                       (parse_onace_codes (doc_onace_string doc))
                       user_onace_code
                  then (relevant_docs ++ [doc])%list else relevant_docs)
               documents acc =
             (acc ++ List.filter
                (fun doc => is_document_relevant
                              (parse_onace_codes (doc_onace_string doc))
                              user_onace_code) documents)%list)
    by apply (H []).
  induction documents as [|d ds IH]; intros acc; simpl.
  - by rewrite app_nil_r.
  - rewrite IH. destruct (is_document_relevant _ _); [|done].
    by rewrite <- app_assoc.
Qed.

Lemma is_document_relevant_true
    (codes : gset string) (user_onace_code : string) :
  is_document_relevant codes user_onace_code = true
  <-> "0" ∈ codes \/ user_onace_code ∈ codes.
Proof.
  unfold is_document_relevant. case_bool_decide as H0.
  - tauto.
  - rewrite bool_decide_eq_true. tauto.
Qed.

(** C6: [is_document_relevant] holds exactly when the document carries the
    general code "0" or the code of the user.  A document tagged only "0" is
    relevant to every user code, a document tagged only "C" is relevant to
    the user code "C" and to no other, "0" included. *)
Theorem is_document_relevant_iff :
  forall (document_onace_codes : gset string) (user_onace_code : string),
    (is_document_relevant document_onace_codes user_onace_code = true
     <-> "0" ∈ document_onace_codes
         \/ user_onace_code ∈ document_onace_codes)
    /\ is_document_relevant {[ "0" ]} user_onace_code = true
    /\ (is_document_relevant {[ "C" ]} user_onace_code = true
        <-> user_onace_code = "C")
    /\ is_document_relevant {[ "C" ]} "0" = false.
Proof.
  intros codes u. split; [apply is_document_relevant_true|].
  split; [apply is_document_relevant_true; set_solver|].
  split.
  - rewrite is_document_relevant_true. set_solver.
  - apply not_true_is_false. rewrite is_document_relevant_true. set_solver.
Qed.

(** The loop of [parse_onace_codes] against the wording of the
    specification. *)
Lemma parse_onace_codes_refines (onace_string : string) :
  parse_onace_codes onace_string = spec_parseCodes onace_string.
Proof.
  unfold parse_onace_codes, spec_parseCodes.
  rewrite parse_loop_spec, union_empty_l_L.
  set (valid := list_to_set _ : gset string).
  destruct (decide (onace_string = "" \/ onace_string = "nan" \/ valid = ∅))
    as [H|H].
  - destruct H as [->|[->|Hv]]; [reflexivity..|].
    destruct (negb (Str.truthy onace_string) || String.eqb onace_string "nan");
      [reflexivity|].
    rewrite decide_True by done. rewrite Hv. set_solver.
  - assert (Hnan : String.eqb onace_string "nan" = false)
      by (apply String.eqb_neq; tauto).
    rewrite Hnan. destruct onace_string as [|c s']; [tauto|].
    cbn [Str.truthy negb orb]. rewrite decide_False by tauto. reflexivity.
Qed.

(** C7: [parse_onace_codes] computes the [parseCodes] of the specification:
    the tokens between commas, trimmed, that belong to the catalog
    "0", "A" .. "U", and the set with "0" alone for the empty input, for
    "nan" and for an input without any valid token such as "zzz". *)
Theorem parse_onace_codes_spec :
  forall onace_string : string,
    parse_onace_codes onace_string = spec_parseCodes onace_string
    /\ dom ONACE_CATEGORIES = catalog_codes
    /\ parse_onace_codes "" = {[ "0" ]}
    /\ parse_onace_codes "nan" = {[ "0" ]}
    /\ parse_onace_codes "zzz" = {[ "0" ]}.
Proof.
  intros s. split; [apply parse_onace_codes_refines|].
  split; [apply dom_ONACE_CATEGORIES|].
  repeat split; vm_compute; reflexivity.
Qed.

Lemma no_valid_token_default (onace_string : string) :
  (forall token, token ∈ Str.split "," onace_string ->
                 Str.strip token ∉ catalog_codes) ->
  parse_onace_codes onace_string = {[ "0" ]}.
Proof.
  intros Hno. rewrite parse_onace_codes_refines.
  unfold spec_parseCodes. case_decide as H; [reflexivity|].
  exfalso. apply H. right. right.
  apply set_eq. intros c. rewrite elem_of_list_to_set, list_elem_of_In.
  rewrite filter_In, in_map_iff, bool_decide_eq_true.
  split; [|set_solver]. intros [(t & <- & Ht) Hc].
  apply list_elem_of_In in Ht. exfalso. exact (Hno t Ht Hc).
Qed.

(** No letter code of the catalog is the lower-case form of a code. *)
Lemma lowercase_code_unknown (code : string) :
  code ∈ catalog_codes -> code ≠ "0" -> Str.lower code ∉ catalog_codes.
Proof.
  unfold catalog_codes. rewrite elem_of_list_to_set.
  intros Hin Hne. repeat (apply elem_of_cons in Hin as [->|Hin];
    [first [congruence | apply (bool_decide_unpack _); vm_compute; exact I]|]).
  by apply elem_of_nil in Hin.
Qed.

(** C9: the codes are matched with their exact case.  A document whose code
    string holds no token of the catalog, such as the lower-case "c", is
    parsed to the general code "0", is relevant to every user code, and is
    kept by [get_relevant_documents] for every user. *)
Theorem unparseable_codes_widen :
  forall (documents : list document) (doc : document)
         (user_onace_code : string),
    doc ∈ documents ->
    (forall token, token ∈ Str.split "," (doc_onace_string doc) ->
                   Str.strip token ∉ catalog_codes) ->
    parse_onace_codes (doc_onace_string doc) = {[ "0" ]}
    /\ is_document_relevant (parse_onace_codes (doc_onace_string doc))
                            user_onace_code = true
    /\ doc ∈ get_relevant_documents documents user_onace_code
    /\ parse_onace_codes "c" = {[ "0" ]}
    /\ parse_onace_codes "C" = {[ "C" ]}
    /\ (forall code, code ∈ catalog_codes -> code <> "0" ->
                     Str.lower code ∉ catalog_codes).
Proof.
  intros documents doc u Hin Hno.
  pose proof (no_valid_token_default _ Hno) as Hp.
  assert (Hrel : is_document_relevant
                   (parse_onace_codes (doc_onace_string doc)) u = true).
  { rewrite Hp. apply is_document_relevant_true. set_solver. }
  split; [exact Hp|]. split; [exact Hrel|]. split.
  - rewrite get_relevant_documents_filter, list_elem_of_In, filter_In.
    by rewrite <- list_elem_of_In.
  - split; [vm_compute; reflexivity|]. split; [vm_compute; reflexivity|].
    apply lowercase_code_unknown.
Qed.

Lemma unparseable_codes_widen_witness :
  let doc : document := {[ "onace_codes" := "c, zz" ]} in
  doc ∈ get_relevant_documents [doc] "A".
Proof.
  intros doc.
  refine (proj1 (proj2 (proj2 (unparseable_codes_widen [doc] doc "A" _ _)))).
  - apply list_elem_of_singleton. reflexivity.
  - apply Forall_forall. apply (bool_decide_unpack _). vm_compute. exact I.
Defined.

End OnaceFacts.

(** ** The link classifier *)

Module LinkFacts.

Import Py Data LinkDetector.

Lemma dom_manager_links : dom manager_links = list_to_set topics.
Proof. vm_compute. reflexivity. Qed.

Lemma topic_has_link (topic : string) :
  topic ∈ topics -> is_Some (manager_links !! topic).
Proof.
  intros H. apply elem_of_dom. rewrite dom_manager_links.
  by apply elem_of_list_to_set.
Qed.

Lemma topic_truthy (topic : string) : topic ∈ topics -> Str.truthy topic = true.
Proof.
  unfold topics. intros H.
  repeat (apply elem_of_cons in H as [->|H]; [reflexivity|]).
  by apply elem_of_nil in H.
Qed.

Lemma classify_query_intent_spec (svc : services)
    (query : string) (chunks : list Chunk) (user_onace_code : string) :
  _classify_query_intent svc query chunks user_onace_code =
  classification_of
    (chat svc (ClassificationRequest query
                 (_get_industry_context user_onace_code)
                 (context_text chunks))).
Proof.
  unfold _classify_query_intent, classify_body, create, classification_of.
  destruct (chat svc _) as [| |s]; simpl; try reflexivity.
  by destruct (bool_decide _).
Qed.

(** C8, as the code has it: the link classifier returns at most one URL.
    The URL is the entry of the three-topic table for the classification
    "water", "industry" or "nature", which is the reply of the model trimmed
    and put in lower case.  A reply whose trimmed lower-case form is outside
    these topics, a reply without content and a failed call give the empty
    list, and no exception leaves [get_relevant_links]. *)
Theorem get_relevant_links_closed :
  forall (svc : services) (query : string) (chunks : list Chunk)
         (user_onace_code : string),
    let reply :=
      chat svc (ClassificationRequest query
                  (_get_industry_context user_onace_code)
                  (context_text chunks)) in
    let links := get_relevant_links svc query chunks user_onace_code in
    links = match classification_of reply with
            | Some topic => option_list (manager_links !! topic)
            | None => []
            end
    /\ (length links <= 1)%nat
    /\ (links = [] <-> classification_of reply = None)
    /\ Forall (fun topic => classification_of (Content topic) = Some topic)
              topics
    /\ dom manager_links = {[ "water"; "industry"; "nature" ]}
    /\ NoDup (map_to_list manager_links).*2.
Proof.
  intros svc query chunks code reply links.
  assert (Hl : links = match classification_of reply with
                       | Some topic => option_list (manager_links !! topic)
                       | None => []
                       end).
  { unfold links, get_relevant_links, links_body.
    rewrite classify_query_intent_spec. fold reply.
    destruct (classification_of reply) as [topic|] eqn:Hc; [|reflexivity].
    assert (Ht : topic ∈ topics).
    { destruct reply as [| |s]; try discriminate. simpl in Hc.
      case_bool_decide; [congruence | discriminate]. }
    rewrite (topic_truthy _ Ht).
    destruct (topic_has_link _ Ht) as [url Hurl]. rewrite Hurl.
    rewrite bool_decide_eq_true_2 by eauto. reflexivity. }
  split; [exact Hl|]. split; [|split; [|split; [|split]]].
  - rewrite Hl. destruct (classification_of reply); [|simpl; lia].
    destruct (manager_links !! _); simpl; lia.
  - rewrite Hl. destruct (classification_of reply) as [topic|] eqn:Hc;
      [|tauto].
    assert (Ht : topic ∈ topics).
    { destruct reply as [| |s]; try discriminate. simpl in Hc.
      case_bool_decide; [congruence | discriminate]. }
    destruct (topic_has_link _ Ht) as [url ->]. simpl. split; discriminate.
  - repeat constructor.
  - vm_compute. reflexivity.
  - apply (bool_decide_unpack _). vm_compute. exact I.
Qed.

(** The sentence of the specification does not hold of the code: the reply "Water" is
    not one of the three topics, and it gives the link of the topic
    "water". *)
Lemma capitalised_reply_link_cex :
  let svc := mkServices (fun _ => Content "Water") (fun _ _ _ => Returned []) in
  ("Water" ∉ topics)
  /\ get_relevant_links svc "Which rivers are monitored?" [] "0"
     = ["https://maps.wisa.bmluk.gv.at/emreg"].
Proof.
  intros svc. split; [|vm_compute; reflexivity].
  apply (bool_decide_unpack _). vm_compute. exact I.
Qed.

End LinkFacts.

(** ** Answer generation *)

Module RagFacts.

Import Py Data Rag.

(** *** The order on sort keys *)

Lemma key_lt_Some (x y : Q) : key_lt (Some x) (Some y) = true <-> (x < y)%Q.
Proof.
  simpl. rewrite negb_true_iff, <- not_true_iff_false, Qle_bool_iff.
  split; [apply Qnot_le_lt | apply Qlt_not_le].
Qed.

Lemma key_lt_irrefl (a : option Q) : key_lt a a = false.
Proof.
  destruct a as [x|]; [|reflexivity].
  apply not_true_is_false. rewrite key_lt_Some. apply Qlt_irrefl.
Qed.

Lemma key_lt_asym (a b : option Q) : key_lt a b = true -> key_lt b a = false.
Proof.
  destruct a as [x|], b as [y|]; try done.
  rewrite key_lt_Some. intros H. apply not_true_is_false.
  rewrite key_lt_Some. intros H'. exact (Qlt_irrefl _ (Qlt_trans _ _ _ H H')).
Qed.

Lemma key_le_refl (a : option Q) : key_le a a = true.
Proof. unfold key_le. by rewrite key_lt_irrefl. Qed.

Lemma key_le_trans (a b c : option Q) :
  key_le a b = true -> key_le b c = true -> key_le a c = true.
Proof.
  unfold key_le. rewrite !negb_true_iff.
  destruct a as [x|], b as [y|], c as [z|]; try done.
  rewrite <- !not_true_iff_false, !key_lt_Some.
  intros H1 H2 H3. apply Qnot_lt_le in H1, H2.
  exact (Qlt_irrefl _ (Qle_lt_trans _ _ _ (Qle_trans _ _ _ H1 H2) H3)).
Qed.

Lemma key_lt_le (a b : option Q) : key_lt a b = true -> key_le a b = true.
Proof. intros H. unfold key_le. by rewrite (key_lt_asym _ _ H). Qed.

Lemma key_le_total (a b : option Q) : key_le a b = true \/ key_le b a = true.
Proof.
  unfold key_le. destruct (key_lt b a) eqn:E; [|by left].
  right. by rewrite (key_lt_asym _ _ E).
Qed.

#[local] Instance score_le_trans : Transitive score_le.
Proof. intros x y z. apply key_le_trans. Qed.

(** *** The sort *)

Lemma insert_by_score_perm (x : Chunk) (l : list Chunk) :
  Permutation (insert_by_score x l) (x :: l).
Proof.
  induction l as [|y l IH]; simpl; [done|].
  destruct (key_lt _ _); [|done].
  rewrite IH. apply perm_swap.
Qed.

Lemma sort_by_score_perm (l : list Chunk) : Permutation (sort_by_score l) l.
Proof.
  induction l as [|x l IH]; simpl; [done|].
  by rewrite insert_by_score_perm, IH.
Qed.

Lemma insert_by_score_sorted (x : Chunk) (l : list Chunk) :
  sorted_by_score l -> sorted_by_score (insert_by_score x l).
Proof.
  unfold sorted_by_score.
  induction 1 as [|y l Hs IH Hy]; simpl.
  - repeat constructor.
  - destruct (key_lt (score_key y) (score_key x)) eqn:E.
    + constructor; [exact IH|].
      rewrite insert_by_score_perm. constructor; [|exact Hy].
      by apply key_lt_le.
    + assert (Hxy : score_le x y) by (unfold score_le, key_le; by rewrite E).
      constructor; [by constructor|].
      constructor; [exact Hxy|].
      eapply Forall_impl; [exact Hy|]. intros z Hz. by transitivity y.
Qed.

Lemma sort_by_score_sorted (l : list Chunk) :
  sorted_by_score (sort_by_score l).
Proof.
  induction l as [|x l IH]; simpl; [constructor|].
  by apply insert_by_score_sorted.
Qed.

(** A list already in ascending order is left as it is. *)
Lemma sort_by_score_id (l : list Chunk) :
  sorted_by_score l -> sort_by_score l = l.
Proof.
  induction 1 as [|x l Hs IH Hx]; simpl; [done|].
  rewrite IH. destruct l as [|y l]; simpl; [done|].
  apply Forall_cons in Hx as [Hxy _]. unfold score_le, key_le in Hxy.
  apply negb_true_iff in Hxy. by rewrite Hxy.
Qed.

(** The sort is stable: the chunks of one score keep their order. *)
Lemma sort_by_score_stable (l : list Chunk) (k : option Q) :
  List.filter (fun x => key_le (score_key x) k && key_le k (score_key x))
              (sort_by_score l) =
  List.filter (fun x => key_le (score_key x) k && key_le k (score_key x)) l.
Proof.
  induction l as [|x l IH]; simpl; [done|].
  rewrite <- IH. generalize (sort_by_score l) as s. clear IH.
  induction s as [|y s IH]; simpl; [done|].
  destruct (key_lt (score_key y) (score_key x)) eqn:E; simpl; [|done].
  rewrite IH.
  destruct (key_le (score_key x) k && key_le k (score_key x)) eqn:Ex; [|done].
  destruct (key_le (score_key y) k && key_le k (score_key y)) eqn:Ey; [|done].
  exfalso. apply andb_prop in Ex as [Hxk Hkx], Ey as [Hyk Hky].
  pose proof (key_le_trans _ _ _ Hxk Hky) as Hxy.
  unfold key_le in Hxy. by rewrite E in Hxy.
Qed.

(** *** The deduplication *)

Lemma dict_has_spec (d : list (string * Chunk)) (k : string) :
  dict_has d k = bool_decide (k ∈ d.*1).
Proof.
  unfold dict_has. induction d as [|[k' v] d IH].
  - symmetry. apply bool_decide_eq_false_2, not_elem_of_nil.
  - cbn [existsb fst fmap list_fmap]. rewrite IH.
    destruct (String.eqb_spec k' k) as [->|Hne]; simpl.
    + symmetry. apply bool_decide_eq_true_2. simpl. left.
    + apply bool_decide_ext. rewrite elem_of_cons. naive_solver.
Qed.

(** Only the set of the texts already seen matters. *)
Lemma first_of_each_text_ext (seen seen' : list string) (l : list Chunk) :
  (forall k, k ∈ seen <-> k ∈ seen') ->
  first_of_each_text seen l = first_of_each_text seen' l.
Proof.
  revert seen seen'. induction l as [|x l IH]; intros seen seen' H; simpl.
  - done.
  - rewrite (bool_decide_ext _ _ (H (text_key x))).
    destruct (bool_decide _); [by apply IH|].
    f_equal. apply IH. intros k. rewrite !elem_of_cons. by rewrite H.
Qed.

(** The dictionary loop keeps the first chunk of each text. *)
Lemma dedup_loop_spec (l : list Chunk) (d : list (string * Chunk)) :
  (fold_left dedup_step l d).*2 = (d.*2 ++ first_of_each_text d.*1 l)%list.
Proof.
  revert d. induction l as [|x l IH]; intros d; simpl.
  - by rewrite app_nil_r.
  - rewrite IH. unfold dedup_step. rewrite dict_has_spec.
    destruct (bool_decide (text_key x ∈ d.*1)); simpl; [done|].
    rewrite !fmap_app, <- app_assoc. simpl. do 2 f_equal.
    apply first_of_each_text_ext. intros k. simpl. set_solver.
Qed.

Lemma unique_chunks_spec (X : list Chunk) :
  unique_chunks X = first_of_each_text [] (sort_by_score X).
Proof. unfold unique_chunks. apply (dedup_loop_spec _ []). Qed.

Lemma first_of_each_text_sublist (seen : list string) (l : list Chunk) :
  sublist (first_of_each_text seen l) l.
Proof.
  revert seen. induction l as [|x l IH]; intros seen; simpl; [done|].
  destruct (bool_decide _); [apply sublist_cons | apply sublist_skip]; apply IH.
Qed.

Lemma first_of_each_text_fresh (seen : list string) (l : list Chunk) (c : Chunk) :
  c ∈ first_of_each_text seen l -> text_key c ∉ seen.
Proof.
  revert seen. induction l as [|x l IH]; intros seen; simpl.
  - by intros ?%elem_of_nil.
  - case_bool_decide as Hx; [apply IH|].
    intros [->|Hc]%elem_of_cons; [done|].
    apply IH in Hc. set_solver.
Qed.

Lemma first_of_each_text_NoDup (seen : list string) (l : list Chunk) :
  NoDup (text_key <$> first_of_each_text seen l).
Proof.
  revert seen. induction l as [|x l IH]; intros seen; simpl.
  - constructor.
  - case_bool_decide as Hx; [apply IH|].
    rewrite fmap_cons. constructor; [|apply IH].
    intros (c & Hk & Hc)%list_elem_of_fmap.
    apply first_of_each_text_fresh in Hc. set_solver.
Qed.

(** A list whose texts are distinct and new is kept whole. *)
Lemma first_of_each_text_id (seen : list string) (l : list Chunk) :
  NoDup (text_key <$> l) ->
  (forall c, c ∈ l -> text_key c ∉ seen) ->
  first_of_each_text seen l = l.
Proof.
  revert seen. induction l as [|x l IH]; intros seen Hnd Hs; simpl; [done|].
  rewrite fmap_cons in Hnd. apply NoDup_cons in Hnd as [Hx Hnd].
  rewrite bool_decide_eq_false_2 by (apply Hs; left).
  f_equal. apply IH; [done|]. intros c Hc.
  rewrite not_elem_of_cons. split; [|apply Hs; by right].
  intros E. apply Hx. rewrite <- E. by apply list_elem_of_fmap_2.
Qed.

(** Each text of the list that is not in [seen] has a chunk in the result. *)
Lemma first_of_each_text_covers (seen : list string) (l : list Chunk) (a : Chunk) :
  a ∈ l -> text_key a ∉ seen ->
  exists c, c ∈ first_of_each_text seen l /\ text_key c = text_key a.
Proof.
  revert seen. induction l as [|x l IH]; intros seen Ha Hs; simpl.
  - by apply elem_of_nil in Ha.
  - case_bool_decide as Hx.
    + apply elem_of_cons in Ha as [->|Ha]; [done|]. by apply IH.
    + destruct (decide (text_key a = text_key x)) as [E|E].
      * exists x. split; [left|done].
      * apply elem_of_cons in Ha as [->|Ha]; [done|].
        destruct (IH (text_key x :: seen) Ha) as (c & Hc & Hk); [set_solver|].
        exists c. split; [by right|done].
Qed.

(** In a sorted list the chunk kept for a text has the least score of the
    chunks of that text. *)
Lemma first_of_each_text_least (seen : list string) (l : list Chunk) (c a : Chunk) :
  sorted_by_score l ->
  c ∈ first_of_each_text seen l -> a ∈ l -> text_key a = text_key c ->
  score_le c a.
Proof.
  intros Hs. revert seen. induction Hs as [|x l Hs IH Hx]; intros seen; simpl.
  - by intros ?%elem_of_nil.
  - case_bool_decide as Hseen.
    + intros Hc Ha E. pose proof (first_of_each_text_fresh _ _ _ Hc) as Hf.
      apply elem_of_cons in Ha as [->|Ha]; [congruence|]. by eapply IH.
    + intros Hc Ha E. apply elem_of_cons in Hc as [->|Hc].
      * apply elem_of_cons in Ha as [->|Ha]; [apply key_le_refl|].
        rewrite Forall_forall in Hx. by apply Hx.
      * pose proof (first_of_each_text_fresh _ _ _ Hc) as Hf.
        apply elem_of_cons in Ha as [->|Ha]; [set_solver|]. by eapply IH.
Qed.

Lemma sorted_by_score_sublist (l1 l2 : list Chunk) :
  sublist l1 l2 -> sorted_by_score l2 -> sorted_by_score l1.
Proof.
  unfold sorted_by_score. induction 1 as [|x l1 l2 H IH|x l1 l2 H IH];
    intros Hs; [done| |].
  - apply StronglySorted_inv in Hs as [Hs Hx].
    constructor; [by apply IH|]. rewrite Forall_forall in Hx |- *.
    intros y Hy. apply Hx. by eapply elem_of_sublist.
  - apply StronglySorted_inv in Hs as [Hs _]. by apply IH.
Qed.

Lemma unique_chunks_sorted (X : list Chunk) : sorted_by_score (unique_chunks X).
Proof.
  rewrite unique_chunks_spec.
  eapply sorted_by_score_sublist; [apply first_of_each_text_sublist|].
  apply sort_by_score_sorted.
Qed.

Lemma unique_chunks_idempotent (X : list Chunk) :
  unique_chunks (unique_chunks X) = unique_chunks X.
Proof.
  rewrite (unique_chunks_spec (unique_chunks X)).
  rewrite sort_by_score_id by apply unique_chunks_sorted.
  apply first_of_each_text_id.
  - rewrite unique_chunks_spec. apply first_of_each_text_NoDup.
  - intros c _. apply not_elem_of_nil.
Qed.

Lemma unique_chunks_pair (a b : Chunk) :
  text_key a = text_key b ->
  key_lt (score_key a) (score_key b) = true ->
  unique_chunks [a; b] = [a] /\ unique_chunks [b; a] = [a].
Proof.
  intros Ht Hlt. rewrite !unique_chunks_spec. simpl.
  rewrite Hlt, (key_lt_asym _ _ Hlt). simpl.
  rewrite <- Ht. rewrite bool_decide_eq_true_2 by (by left). done.
Qed.

(** C3: the deduplication sorts the whole pool by ascending score and keeps
    the first chunk of each text in that order.  Hence of two chunks of the
    pool with the same text and different scores the one with the higher
    score does not survive while a chunk of that text with a score at most
    the lower one does, and deduplicating twice is deduplicating once. *)
Theorem unique_chunks_dedup :
  forall X : list Chunk,
    unique_chunks X = first_of_each_text [] (sort_by_score X)
    /\ sorted_by_score (sort_by_score X)
    /\ Permutation (sort_by_score X) X
    /\ NoDup (text_key <$> unique_chunks X)
    /\ (forall a b : Chunk,
          a ∈ X -> b ∈ X -> text_key a = text_key b ->
          key_lt (score_key a) (score_key b) = true ->
          (b ∉ unique_chunks X)
          /\ exists c, c ∈ unique_chunks X
                       /\ text_key c = text_key a /\ score_le c a)
    /\ (forall a b : Chunk,
          text_key a = text_key b ->
          key_lt (score_key a) (score_key b) = true ->
          unique_chunks [a; b] = [a] /\ unique_chunks [b; a] = [a])
    /\ unique_chunks (unique_chunks X) = unique_chunks X.
Proof.
  intros X.
  split; [apply unique_chunks_spec|].
  split; [apply sort_by_score_sorted|].
  split; [apply sort_by_score_perm|].
  split; [rewrite unique_chunks_spec; apply first_of_each_text_NoDup|].
  split; [|split; [apply unique_chunks_pair | apply unique_chunks_idempotent]].
  intros a b Ha Hb Ht Hlt. rewrite unique_chunks_spec.
  assert (Ha' : a ∈ sort_by_score X) by (by rewrite sort_by_score_perm).
  split.
  - intros Hin.
    pose proof (first_of_each_text_least [] _ b a (sort_by_score_sorted X)
                  Hin Ha' Ht) as Hle.
    unfold score_le, key_le in Hle. by rewrite Hlt in Hle.
  - destruct (first_of_each_text_covers [] _ a Ha') as (c & Hc & Hk);
      [apply not_elem_of_nil|].
    exists c. repeat split; [done..|].
    eapply first_of_each_text_least;
      [apply sort_by_score_sorted | exact Hc | exact Ha' | done].
Qed.

Lemma unique_chunks_dedup_witness :
  let a := mkChunk (Some "id-1") (Some "same passage") (Some (1 # 4)%Q) None in
  let b := mkChunk (Some "id-2") (Some "same passage") (Some (3 # 4)%Q) None in
  (b ∉ unique_chunks [b; a])
  /\ exists c, c ∈ unique_chunks [b; a]
               /\ text_key c = text_key a /\ score_le c a.
Proof.
  intros a b.
  refine (proj1 (proj2 (proj2 (proj2 (proj2 (unique_chunks_dedup [b; a])))))
            a b _ _ _ _).
  - right. left.
  - left.
  - reflexivity.
  - reflexivity.
Defined.

(** *** The priority ranking *)

Lemma slice_to_nonneg {A} (l : list A) (k : Z) :
  (0 <= k)%Z -> slice_to l k = firstn (Z.to_nat k) l.
Proof. intros H. unfold slice_to. by rewrite (proj2 (Z.leb_le 0 k) H). Qed.

Lemma slice_to_sublist {A} (l : list A) (k : Z) : sublist (slice_to l k) l.
Proof. unfold slice_to. destruct (0 <=? k)%Z; apply sublist_take. Qed.

Lemma vsme_limit_bounds (top_k : Z) :
  (1 <= top_k)%Z -> (1 <= vsme_limit top_k <= top_k)%Z.
Proof.
  intros H. unfold vsme_limit.
  assert (top_k / 2 <= top_k)%Z by (apply Z.div_le_upper_bound; lia).
  lia.
Qed.

(** C2: for [top_k >= 1] the ranking is the first [max(1, top_k // 2)]
    chunks of the VSME chunks followed by the first [top_k] minus that many
    of the other chunks, each group sorted by ascending score.  It has at
    most [top_k] chunks, exactly [top_k] when both groups are large enough,
    and when the VSME group is smaller than its quota all of it is taken and
    nothing more comes from the other group. *)
Theorem top_unique_chunks_quota :
  forall (unique_chunks : list Chunk) (top_k : Z),
    (1 <= top_k)%Z ->
    let primary := sort_by_score (List.filter vsme_flag unique_chunks) in
    let other :=
      sort_by_score
        (List.filter (fun chunk => negb (vsme_flag chunk)) unique_chunks) in
    let quota := Z.max 1 (top_k / 2) in
    let ranked := top_unique_chunks unique_chunks top_k in
    ranked = (firstn (Z.to_nat quota) primary
              ++ firstn (Z.to_nat (top_k - quota)) other)%list
    /\ sorted_by_score primary /\ sorted_by_score other
    /\ Permutation primary (List.filter vsme_flag unique_chunks)
    /\ Permutation other
         (List.filter (fun chunk => negb (vsme_flag chunk)) unique_chunks)
    /\ (Z.of_nat (length ranked) <= top_k)%Z
    /\ ((quota <= Z.of_nat (length primary))%Z ->
        (top_k - quota <= Z.of_nat (length other))%Z ->
        Z.of_nat (length ranked) = top_k)
    /\ ((Z.of_nat (length primary) < quota)%Z ->
        ranked = (primary ++ firstn (Z.to_nat (top_k - quota)) other)%list
        /\ length ranked =
           (length primary
            + Nat.min (Z.to_nat (top_k - quota)) (length other))%nat).
Proof.
  intros u top_k Hk primary other quota ranked.
  pose proof (vsme_limit_bounds top_k Hk) as Hq.
  unfold vsme_limit in Hq. fold quota in Hq.
  assert (Hr : ranked = (firstn (Z.to_nat quota) primary
                         ++ firstn (Z.to_nat (top_k - quota)) other)%list).
  { unfold ranked, top_unique_chunks. fold primary other.
    unfold vsme_limit. fold quota.
    rewrite !slice_to_nonneg by lia. reflexivity. }
  split; [exact Hr|].
  split; [apply sort_by_score_sorted|].
  split; [apply sort_by_score_sorted|].
  split; [apply sort_by_score_perm|].
  split; [apply sort_by_score_perm|].
  rewrite Hr, length_app, !length_take.
  split; [lia|]. split; [lia|].
  intros Hlt. split; [|lia].
  by rewrite (firstn_all2 primary) by lia.
Qed.

Lemma top_unique_chunks_quota_witness :
  let v (t : string) (s : Q) :=
    mkChunk None (Some t) (Some s) (Some (mkMetadata (Some "vsme.pdf") (Some true))) in
  let o (t : string) (s : Q) :=
    mkChunk None (Some t) (Some s) (Some (mkMetadata (Some "csrd.pdf") None)) in
  let pool := [o "o3" 3; v "v2" 2; o "o1" 1; v "v5" 5; o "o2" 2; v "v1" 1;
               o "o5" 5; v "v4" 4; v "v3" 3; o "o4" 4]%Q in
  top_unique_chunks pool 3 = [v "v1" 1; o "o1" 1; o "o2" 2]%Q
  /\ Z.of_nat (length (top_unique_chunks pool 3)) = 3%Z.
Proof.
  intros v o pool.
  destruct (top_unique_chunks_quota pool 3 ltac:(lia))
    as (Hr & _ & _ & _ & _ & _ & Hfull & _).
  split.
  - rewrite Hr. vm_compute. reflexivity.
  - apply Hfull; vm_compute; discriminate.
Defined.

(** *** The fan-out retrieval *)

Lemma gather_Returned {A} (tasks : list (outcome A)) (results : list A) :
  gather tasks = Returned results <-> tasks = List.map Returned results.
Proof.
  revert results. induction tasks as [|task tasks IH]; intros results; simpl.
  - split.
    + intros [= <-]. reflexivity.
    + destruct results; [reflexivity | discriminate].
  - destruct task as [a|e]; simpl.
    + destruct (gather tasks) as [l|e] eqn:E; simpl.
      * split.
        -- intros [= <-]. simpl. f_equal. by apply IH.
        -- destruct results as [|a' results]; [discriminate|].
           intros [= <- H]. apply IH in H. injection H as <-. reflexivity.
      * split; [discriminate|].
        destruct results as [|a' results]; [discriminate|].
        intros [= <- H]. apply IH in H. discriminate.
    + split; [discriminate|]. destruct results; discriminate.
Qed.

Lemma gather_Raised {A} (tasks : list (outcome A)) (e : exception) :
  Raised e ∈ tasks -> exists e', gather tasks = Raised e'.
Proof.
  induction tasks as [|task tasks IH]; [by intros ?%elem_of_nil|].
  intros [<-|Hin]%elem_of_cons; simpl; [by exists e|].
  destruct task as [a|e1]; simpl; [|by exists e1].
  destruct (IH Hin) as [e' ->]. by exists e'.
Qed.

(** When every search returns, the pool is the concatenation of the
    results in the order of the queries. *)
Lemma all_chunks_Returned (svc : services) (search_queries : list string)
    (top_k : Z) (user_onace_code : string) (lists : list (list Chunk)) :
  Forall2 (fun q l => search_all_documents svc q top_k user_onace_code
                      = Returned l) search_queries lists ->
  all_chunks svc search_queries top_k user_onace_code
  = Returned (concat lists).
Proof.
  intros H. unfold all_chunks.
  assert (E : gather (List.map (fun q => search_all_documents svc q top_k
                                            user_onace_code) search_queries)
              = Returned lists).
  { apply gather_Returned. induction H as [|q l qs ls Hq _ IH]; simpl;
      [reflexivity | by rewrite Hq, IH]. }
  by rewrite E.
Qed.

(** One search that raises makes the whole retrieval raise. *)
Lemma all_chunks_Raised (svc : services) (search_queries : list string)
    (top_k : Z) (user_onace_code : string) (q : string) (e : exception) :
  q ∈ search_queries ->
  search_all_documents svc q top_k user_onace_code = Raised e ->
  exists e', all_chunks svc search_queries top_k user_onace_code = Raised e'.
Proof.
  intros Hq He. unfold all_chunks.
  destruct (gather_Raised
              (List.map (fun q => search_all_documents svc q top_k
                                    user_onace_code) search_queries) e)
    as [e' E].
  - rewrite <- He. apply list_elem_of_In.
    apply (in_map (fun q => search_all_documents svc q top_k user_onace_code)).
    by apply list_elem_of_In.
  - exists e'. by rewrite E.
Qed.

(** Each chunk of the pool was returned by the search of one query. *)
Lemma all_chunks_origin (svc : services) (search_queries : list string)
    (top_k : Z) (user_onace_code : string) (pool : list Chunk) (c : Chunk) :
  all_chunks svc search_queries top_k user_onace_code = Returned pool ->
  c ∈ pool ->
  exists q l, q ∈ search_queries
              /\ search_all_documents svc q top_k user_onace_code = Returned l
              /\ c ∈ l.
Proof.
  unfold all_chunks.
  destruct (gather _) as [lists|e] eqn:E; simpl; [|discriminate].
  intros [= <-] Hc. apply gather_Returned in E.
  apply list_elem_of_In, in_concat in Hc as (l & Hl & Hc).
  assert (Hr : In (Returned l) (List.map Returned lists)) by by apply in_map.
  rewrite <- E in Hr. apply in_map_iff in Hr as (q & Hq & Hin).
  exists q, l. by rewrite <- !list_elem_of_In in *.
Qed.

(** When the retrieval returns a pool, the context is formatted and the
    completion call of the answer does not fail, [generate_answer] succeeds
    with the ranked, deduplicated chunks of that pool. *)
Lemma generate_answer_of_pool (svc : services) (query : string)
    (conversation_history : option string) (top_k : Z) (model : string)
    (temperature : Q) (meta_information : option string)
    (user_onace_code : string) (pool : list Chunk) (context : string) :
  all_chunks svc (query :: expand_query svc query 4) top_k user_onace_code
  = Returned pool ->
  format_context (top_unique_chunks (unique_chunks pool) top_k)
  = Returned context ->
  chat svc (SynthesisRequest model temperature (nonblank meta_information)
              (nonempty conversation_history) context query)
  <> CallFailure ->
  let r := generate_answer svc query conversation_history top_k model
             temperature meta_information user_onace_code in
  success r = true
  /\ chunks r = top_unique_chunks (unique_chunks pool) top_k
  /\ expanded_queries r = expand_query svc query 4.
Proof.
  intros Hp Hc Hs r. unfold r, generate_answer, generate_answer_body.
  rewrite Hp. simpl. rewrite Hc. simpl. unfold create.
  destruct (chat svc _); [done | by simpl..].
Qed.

(** C1, as the code has it: the retrieval is all or nothing.  When every
    search returns, the evidence passed on is the concatenation of the
    results, and it is the pool that [generate_answer] deduplicates and
    ranks; when the search of one query raises, the whole batch raises,
    nothing is passed on, and [generate_answer] returns the apology with no
    chunks. *)
Theorem fanout_all_or_nothing :
  forall (svc : services) (top_k : Z) (user_onace_code : string),
    (forall (search_queries : list string) (lists : list (list Chunk)),
        Forall2 (fun q l => search_all_documents svc q top_k user_onace_code
                            = Returned l) search_queries lists ->
        all_chunks svc search_queries top_k user_onace_code
        = Returned (concat lists))
    /\ (forall (search_queries : list string) (q : string) (e : exception),
          q ∈ search_queries ->
          search_all_documents svc q top_k user_onace_code = Raised e ->
          exists e',
            all_chunks svc search_queries top_k user_onace_code = Raised e')
    /\ (forall (query : string) (conversation_history : option string)
               (model : string) (temperature : Q)
               (meta_information : option string) (q : string) (e : exception),
          q ∈ query :: expand_query svc query 4 ->
          search_all_documents svc q top_k user_onace_code = Raised e ->
          generate_answer svc query conversation_history top_k model
                          temperature meta_information user_onace_code
          = apology
          /\ chunks (generate_answer svc query conversation_history top_k
                                     model temperature meta_information
                                     user_onace_code) = [])
    /\ (forall (query : string) (conversation_history : option string)
               (model : string) (temperature : Q)
               (meta_information : option string)
               (lists : list (list Chunk)) (context : string),
          Forall2 (fun q l => search_all_documents svc q top_k user_onace_code
                              = Returned l)
                  (query :: expand_query svc query 4) lists ->
          format_context
            (top_unique_chunks (unique_chunks (concat lists)) top_k)
          = Returned context ->
          chat svc (SynthesisRequest model temperature
                      (nonblank meta_information)
                      (nonempty conversation_history) context query)
          <> CallFailure ->
          let r := generate_answer svc query conversation_history top_k model
                     temperature meta_information user_onace_code in
          success r = true
          /\ chunks r
             = top_unique_chunks (unique_chunks (concat lists)) top_k).
Proof.
  intros svc top_k code.
  split; [intros queries lists; apply all_chunks_Returned|].
  split; [intros queries q e; apply all_chunks_Raised|].
  split.
  - intros query hist model temp meta q e Hq He.
    destruct (all_chunks_Raised svc _ top_k code q e Hq He) as [e' E].
    assert (Ha : generate_answer svc query hist top_k model temp meta code
                 = apology).
    { unfold generate_answer, generate_answer_body. by rewrite E. }
    split; [exact Ha | by rewrite Ha].
  - intros query hist model temp meta lists context Hl Hc Hs r.
    apply all_chunks_Returned in Hl.
    destruct (generate_answer_of_pool svc query hist top_k model temp meta
                code _ context Hl Hc Hs) as (H1 & H2 & _).
    by split.
Qed.

Lemma fanout_all_or_nothing_witness :
  let c := mkChunk (Some "c1") (Some "Water quality is reported yearly.")
                   (Some (1 # 4)%Q)
                   (Some (mkMetadata (Some "EU_2000_60.pdf") None)) in
  let d := mkChunk (Some "c2") (Some "Monitoring duties follow the directive.")
                   (Some (1 # 2)%Q)
                   (Some (mkMetadata (Some "EU_2006_118.pdf") None)) in
  let chat_reply :=
    fun r => match r with
             | ExpansionRequest _ _ => Content "1. water monitoring duties"
             | _ => Content "water"
             end in
  let failing :=
    mkServices chat_reply
      (fun q _ _ => if String.eqb q "water reporting"
                    then Returned [c] else Raised ServiceError) in
  let working :=
    mkServices chat_reply
      (fun q _ _ => if String.eqb q "water reporting"
                    then Returned [c] else Returned [d; c]) in
  generate_answer failing "water reporting" None 3 "gpt" 0%Q None "0"
  = apology
  /\ chunks (generate_answer working "water reporting" None 3 "gpt" 0%Q None
                             "0") = [c; d].
Proof.
  intros c d chat_reply failing working. split.
  - refine (proj1 (proj1 (proj2 (proj2 (fanout_all_or_nothing failing 3 "0")))
                     "water reporting" None "gpt" 0%Q None
                     "water monitoring duties" ServiceError _ _)).
    + right. left.
    + reflexivity.
  - refine (eq_trans
              (proj2 (proj2 (proj2 (proj2 (fanout_all_or_nothing working 3
                                             "0")))
                        "water reporting" None "gpt" 0%Q None
                        [[c]; [d; c]] _ _ _ _)) _).
    + repeat constructor.
    + vm_compute. reflexivity.
    + vm_compute. discriminate.
    + vm_compute. reflexivity.
Defined.

(** The sentence of the specification does not hold of the code: with two queries, the
    first of which finds a chunk while the search of the second raises, no
    pool reaches the deduplication and the chunk found is not in the
    result. *)
Lemma fanout_partial_results_cex :
  let c := mkChunk (Some "c1") (Some "Water quality is reported yearly.")
                   (Some (1 # 4)%Q)
                   (Some (mkMetadata (Some "EU_2000_60.pdf") None)) in
  let svc :=
    mkServices
      (fun r => match r with
                | ExpansionRequest _ _ => Content "1. water monitoring duties"
                | _ => Content "water"
                end)
      (fun q _ _ => if String.eqb q "water reporting"
                    then Returned [c] else Raised ServiceError) in
  let search_queries :=
    "water reporting" :: expand_query svc "water reporting" 4 in
  search_queries = ["water reporting"; "water monitoring duties"]
  /\ search_all_documents svc "water reporting" 3 "0" = Returned [c]
  /\ search_all_documents svc "water monitoring duties" 3 "0"
     = Raised ServiceError
  /\ ~ (exists pool,
          all_chunks svc search_queries 3 "0" = Returned pool /\ c ∈ pool)
  /\ (c ∉ chunks (generate_answer svc "water reporting" None 3 "gpt" 0%Q
                                  None "0")).
Proof.
  intros c svc search_queries.
  split; [reflexivity|]. split; [reflexivity|]. split; [reflexivity|].
  split.
  - intros (pool & H & _). vm_compute in H. discriminate.
  - change (c ∉ []). apply not_elem_of_nil.
Qed.

(** *** The result of [generate_answer] *)

(** [generate_answer] returns the apology or a result marked successful. *)
Lemma generate_answer_cases (svc : services) (query : string)
    (conversation_history : option string) (top_k : Z) (model : string)
    (temperature : Q) (meta_information : option string)
    (user_onace_code : string) :
  let r := generate_answer svc query conversation_history top_k model
             temperature meta_information user_onace_code in
  r = apology \/ success r = true.
Proof.
  unfold generate_answer, generate_answer_body.
  destruct (all_chunks _ _ _ _) as [pool|e]; simpl; [|by left].
  destruct (format_context _) as [context|e]; simpl; [|by left].
  destruct (create _ _) as [content|e]; simpl; [by right | by left].
Qed.

(** C4: when the completion call of the answer fails, [generate_answer]
    returns the fixed apology, with no chunks, no expanded queries, no
    sources, no link and [success] false.  No exception leaves
    [generate_answer]: its result is always the apology or a successful
    record. *)
Theorem synthesis_failure_apology :
  forall (svc : services) (query : string)
         (conversation_history : option string) (top_k : Z) (model : string)
         (temperature : Q) (meta_information : option string)
         (user_onace_code : string) (pool : list Chunk) (context : string),
    all_chunks svc (query :: expand_query svc query 4) top_k user_onace_code
    = Returned pool ->
    format_context (top_unique_chunks (unique_chunks pool) top_k)
    = Returned context ->
    chat svc (SynthesisRequest model temperature (nonblank meta_information)
                (nonempty conversation_history) context query)
    = CallFailure ->
    let r := generate_answer svc query conversation_history top_k model
               temperature meta_information user_onace_code in
    r = {| answer := Some "I apologize, but I encountered an error while processing your request.";
           chunks := [];
           expanded_queries := [];
           sources := [];
           relevant_links := [];
           success := false |}
    /\ (forall svc' query' history' top_k' model' temperature' meta' code',
          let r' := generate_answer svc' query' history' top_k' model'
                      temperature' meta' code' in
          r' = apology \/ success r' = true).
Proof.
  intros svc query hist top_k model temp meta code pool context Hp Hc Hs r.
  split; [|intros; apply generate_answer_cases].
  unfold r, generate_answer, generate_answer_body.
  rewrite Hp. simpl. rewrite Hc. simpl.
  unfold create. rewrite Hs. reflexivity.
Qed.

Lemma synthesis_failure_apology_witness :
  let c := mkChunk (Some "c1") (Some "Water quality is reported yearly.")
                   (Some (1 # 4)%Q)
                   (Some (mkMetadata (Some "EU_2000_60.pdf") None)) in
  let svc :=
    mkServices
      (fun r => match r with
                | ExpansionRequest _ _ => Content "1. water monitoring duties"
                | SynthesisRequest _ _ _ _ _ _ => CallFailure
                | ClassificationRequest _ _ _ => Content "water"
                end)
      (fun q _ _ => Returned [c]) in
  generate_answer svc "water reporting" None 3 "gpt" 0%Q None "0" = apology.
Proof.
  intros c svc.
  refine (proj1 (synthesis_failure_apology svc "water reporting" None 3 "gpt"
                   0%Q None "0" [c; c] _ _ _ _)).
  - reflexivity.
  - vm_compute. reflexivity.
  - reflexivity.
Defined.

(** *** Selection only *)

Lemma unique_chunks_submseteq (X : list Chunk) : unique_chunks X ⊆+ X.
Proof.
  rewrite unique_chunks_spec.
  etransitivity; [apply sublist_submseteq, first_of_each_text_sublist|].
  apply Permutation_submseteq, sort_by_score_perm.
Qed.

Lemma filter_partition_perm {A} (f : A -> bool) (l : list A) :
  Permutation (List.filter f l ++ List.filter (fun a => negb (f a)) l) l.
Proof.
  induction l as [|a l IH]; simpl; [done|].
  destruct (f a); simpl; [by constructor|].
  by rewrite <- Permutation_middle, IH.
Qed.

Lemma top_unique_chunks_submseteq (u : list Chunk) (top_k : Z) :
  top_unique_chunks u top_k ⊆+ u.
Proof.
  unfold top_unique_chunks.
  etransitivity;
    [|apply Permutation_submseteq, (filter_partition_perm vsme_flag u)].
  apply submseteq_app.
  - etransitivity; [apply sublist_submseteq, slice_to_sublist|].
    apply Permutation_submseteq, sort_by_score_perm.
  - etransitivity; [apply sublist_submseteq, slice_to_sublist|].
    apply Permutation_submseteq, sort_by_score_perm.
Qed.

Lemma format_chunks_fields (i : nat) (l : list Chunk) (formatted : list string) :
  format_chunks i l = Returned formatted ->
  Forall (fun c => is_Some (metadata c) /\ is_Some (text c)) l.
Proof.
  revert i formatted. induction l as [|c l IH]; intros i formatted; simpl.
  - constructor.
  - unfold format_chunk.
    destruct (metadata c) as [m|] eqn:Em; simpl; [|discriminate].
    destruct (text c) as [t|] eqn:Et; simpl; [|discriminate].
    destruct (format_chunks (S i) l) as [f|e] eqn:E; simpl; [|discriminate].
    intros _. constructor; [rewrite Em, Et; split; eauto|]. by eapply IH.
Qed.

Lemma format_context_fields (l : list Chunk) (context : string) :
  format_context l = Returned context ->
  Forall (fun c => is_Some (metadata c) /\ is_Some (text c)) l.
Proof.
  destruct l as [|c l]; [constructor|].
  unfold format_context.
  destruct (format_chunks 0 (c :: l)) as [f|e] eqn:E; [|discriminate].
  intros _. by eapply format_chunks_fields.
Qed.

Lemma sources_are_filenames (l : list Chunk) :
  Forall (fun c => is_Some (metadata c) /\ is_Some (text c)) l ->
  Forall2 (fun c s =>
             exists m, metadata c = Some m
                       /\ s = default "Unknown source" (filename m))
          l (List.map source_of l).
Proof.
  induction 1 as [|c l [[m Hm] _] _ IH]; simpl; constructor; [|exact IH].
  exists m. split; [exact Hm|]. unfold source_of. by rewrite Hm.
Qed.

(** C10: deduplication and ranking select and reorder, nothing else.  The
    chunks of the result are, with their multiplicity, chunks of the
    retrieved pool, each returned unchanged by the search of one of the
    queries, and the sources are the file names of these chunks in the
    same order. *)
Theorem chunks_are_selected :
  forall (svc : services) (query : string)
         (conversation_history : option string) (top_k : Z) (model : string)
         (temperature : Q) (meta_information : option string)
         (user_onace_code : string),
    let r := generate_answer svc query conversation_history top_k model
               temperature meta_information user_onace_code in
    let search_queries := query :: expand_query svc query 4 in
    match all_chunks svc search_queries top_k user_onace_code with
    | Returned pool =>
        chunks r ⊆+ pool
        /\ (chunks r = []
            \/ chunks r = top_unique_chunks (unique_chunks pool) top_k)
    | Raised _ => chunks r = []
    end
    /\ Forall (fun c =>
                 exists q l,
                   q ∈ search_queries
                   /\ search_all_documents svc q top_k user_onace_code
                      = Returned l
                   /\ c ∈ l) (chunks r)
    /\ sources r = List.map source_of (chunks r)
    /\ Forall2 (fun c s =>
                  exists m, metadata c = Some m
                            /\ s = default "Unknown source" (filename m))
               (chunks r) (sources r).
Proof.
  intros svc query hist top_k model temp meta code r queries.
  unfold r, generate_answer, generate_answer_body. fold queries.
  destruct (all_chunks svc queries top_k code) as [pool|e] eqn:Ep; simpl;
    [|repeat split; constructor].
  set (top := top_unique_chunks (unique_chunks pool) top_k).
  assert (Hsub : top ⊆+ pool).
  { unfold top. etransitivity; [apply top_unique_chunks_submseteq|].
    apply unique_chunks_submseteq. }
  destruct (format_context top) as [context|e] eqn:Ec; simpl;
    [|repeat split; [apply submseteq_nil_l | by left | constructor..]].
  destruct (create svc _) as [content|e]; simpl;
    [|repeat split; [apply submseteq_nil_l | by left | constructor..]].
  split; [split; [done | by right]|]. split; [|split; [reflexivity|]].
  - apply Forall_forall. intros c Hc.
    eapply all_chunks_origin; [exact Ep|].
    by eapply elem_of_submseteq.
  - eapply sources_are_filenames, format_context_fields, Ec.
Qed.

(** *** The query expansion *)

Lemma contains_take (c : ascii) (n : nat) (s : string) :
  Str.contains c (Str.take n s) = true -> Str.contains c s = true.
Proof.
  revert s. induction n as [|n IH]; intros [|d s]; simpl; try done.
  intros [H|H]%orb_true_iff; apply orb_true_iff; [by left|].
  right. by apply IH.
Qed.

(** When the separator occurs, [split(sep, 1)] has two parts and the second
    is the text after the first separator. *)
Lemma split1_contains (sep : ascii) (s : string) :
  Str.contains sep s = true ->
  exists before, Str.split1 sep s = [before; after_first sep s].
Proof.
  induction s as [|c s IH]; simpl; [done|].
  destruct (Ascii.eqb c sep); simpl; [by eexists|].
  intros H. destruct (IH H) as [before ->]. by eexists.
Qed.

Lemma clean_spec (c0 : ascii) (rest : string) :
  clean c0 (String c0 rest) = Returned (clean_line (String c0 rest)).
Proof.
  unfold clean, clean_line, strip_numbering, strip_quotes.
  set (line := String c0 rest).
  destruct (Str.isdigit c0 && Str.contains "." (Str.take 3 line)) eqn:E.
  - apply andb_true_iff in E as [_ E]. apply contains_take in E.
    destruct (split1_contains _ _ E) as [before ->]. reflexivity.
  - reflexivity.
Qed.

Lemma expansion_loop_spec (lines : list string) (acc : list string) :
  expansion_loop acc lines =
  Returned (acc ++ List.map clean_line
                     (List.filter Str.truthy (List.map Str.strip lines)))%list.
Proof.
  revert acc. induction lines as [|line lines IH]; intros acc; simpl.
  - by rewrite app_nil_r.
  - unfold expansion_step.
    destruct (Str.strip line) as [|c0 rest] eqn:E; simpl.
    + apply IH.
    + rewrite clean_spec. simpl. rewrite IH, <- app_assoc. reflexivity.
Qed.

Lemma expand_query_spec (svc : services) (query : string) (num_expansions : Z) :
  expand_query svc query num_expansions =
  match chat svc (ExpansionRequest query num_expansions) with
  | Content reply =>
      slice_to (List.map clean_line (reply_lines reply)) num_expansions
  | _ => []
  end.
Proof.
  unfold expand_query, expand_body, create.
  destruct (chat svc _) as [| |reply]; simpl; try reflexivity.
  rewrite expansion_loop_spec. reflexivity.
Qed.

Lemma length_slice_to {A} (l : list A) (k : Z) :
  (0 <= k)%Z -> (Z.of_nat (length (slice_to l k)) <= k)%Z.
Proof. intros H. rewrite slice_to_nonneg, length_take by done. lia. Qed.

Lemma reply_lines_nonblank (reply : string) :
  Forall (fun line => line <> "" /\ exists raw, line = Str.strip raw)
         (reply_lines reply).
Proof.
  apply Forall_forall. intros line Hin.
  apply list_elem_of_In, filter_In in Hin as [Hin Ht].
  apply in_map_iff in Hin as (raw & <- & _).
  split; [|by exists raw]. intros E. by rewrite E in Ht.
Qed.

(** C5, as the code has it: for [n >= 0], [expand_query] returns at most [n]
    strings, one for each of the first non-blank lines of the reply.  The
    line is trimmed; when it starts with a digit and has a full stop among
    its first three characters, the text up to the first full stop is
    dropped ("1. x" gives "x", "2) x" stays as it is); then a pair of
    surrounding double quotes and a pair of surrounding single quotes are
    removed.  Blank lines are discarded.  A failed call or a reply without
    content gives the empty list and no exception leaves [expand_query].
    [generate_answer] searches the original query followed by the
    expansions: it fails when the search of the original query raises, it
    ranks the pool retrieved for that list, and after a failed expansion it
    answers from the results of the original query alone. *)
Theorem expand_query_contract :
  forall (svc : services) (query : string) (n : Z),
    (0 <= n)%Z ->
    let reply := chat svc (ExpansionRequest query n) in
    let expanded := expand_query svc query n in
    (Z.of_nat (length expanded) <= n)%Z
    /\ expanded = match reply with
                  | Content text =>
                      firstn (Z.to_nat n)
                             (List.map clean_line (reply_lines text))
                  | _ => []
                  end
    /\ (forall text,
          Forall (fun line => line <> "" /\ exists raw, line = Str.strip raw)
                 (reply_lines text))
    /\ (forall (c0 : ascii) (rest : string),
          clean_line (String c0 rest) =
          let line := String c0 rest in
          let unnumbered :=
            if Str.isdigit c0 && Str.contains "." (Str.take 3 line)
            then Str.strip (after_first "." line) else line in
          strip_quotes single_quote (strip_quotes double_quote unnumbered))
    /\ clean_line "1. water duties" = "water duties"
    /\ clean_line "2) water duties" = "2) water duties"
    /\ clean_line (String double_quote (String.append "water duties"
                                          (String double_quote "")))
       = "water duties"
    /\ clean_line "'water duties'" = "water duties"
    /\ (chat svc (ExpansionRequest query 4) = CallFailure
        \/ chat svc (ExpansionRequest query 4) = NoContent ->
        query :: expand_query svc query 4 = [query])
    /\ (forall (conversation_history : option string) (top_k : Z)
               (model : string) (temperature : Q)
               (meta_information : option string) (user_onace_code : string)
               (e : exception),
          search_all_documents svc query top_k user_onace_code = Raised e ->
          generate_answer svc query conversation_history top_k model
                          temperature meta_information user_onace_code
          = apology)
    /\ (forall (conversation_history : option string) (top_k : Z)
               (model : string) (temperature : Q)
               (meta_information : option string) (user_onace_code : string)
               (lists : list (list Chunk)) (context : string),
          Forall2 (fun q l => search_all_documents svc q top_k user_onace_code
                              = Returned l)
                  (query :: expand_query svc query 4) lists ->
          format_context
            (top_unique_chunks (unique_chunks (concat lists)) top_k)
          = Returned context ->
          chat svc (SynthesisRequest model temperature
                      (nonblank meta_information)
                      (nonempty conversation_history) context query)
          <> CallFailure ->
          let r := generate_answer svc query conversation_history top_k model
                     temperature meta_information user_onace_code in
          success r = true
          /\ chunks r
             = top_unique_chunks (unique_chunks (concat lists)) top_k
          /\ expanded_queries r = expand_query svc query 4)
    /\ (chat svc (ExpansionRequest query 4) = CallFailure
        \/ chat svc (ExpansionRequest query 4) = NoContent ->
        forall (conversation_history : option string) (top_k : Z)
               (model : string) (temperature : Q)
               (meta_information : option string) (user_onace_code : string)
               (found : list Chunk) (context : string),
          search_all_documents svc query top_k user_onace_code
          = Returned found ->
          format_context (top_unique_chunks (unique_chunks found) top_k)
          = Returned context ->
          chat svc (SynthesisRequest model temperature
                      (nonblank meta_information)
                      (nonempty conversation_history) context query)
          <> CallFailure ->
          let r := generate_answer svc query conversation_history top_k model
                     temperature meta_information user_onace_code in
          success r = true
          /\ chunks r = top_unique_chunks (unique_chunks found) top_k
          /\ expanded_queries r = []).
Proof.
  intros svc query n Hn reply expanded.
  assert (He : expanded = match reply with
                          | Content text =>
                              firstn (Z.to_nat n)
                                     (List.map clean_line (reply_lines text))
                          | _ => []
                          end).
  { unfold expanded. rewrite expand_query_spec. fold reply.
    destruct reply; try reflexivity. by apply slice_to_nonneg. }
  split.
  { unfold expanded. rewrite expand_query_spec.
    destruct (chat svc _); [simpl; lia.. | by apply length_slice_to]. }
  split; [exact He|]. split; [apply reply_lines_nonblank|].
  split; [reflexivity|].
  repeat (split; [vm_compute; reflexivity|]).
  assert (Hfail : chat svc (ExpansionRequest query 4) = CallFailure
                  \/ chat svc (ExpansionRequest query 4) = NoContent ->
                  expand_query svc query 4 = []).
  { rewrite expand_query_spec. by intros [-> | ->]. }
  split; [intros H; by rewrite (Hfail H)|].
  split.
  { intros hist top_k model temp meta code e Hraise.
    destruct (all_chunks_Raised svc (query :: expand_query svc query 4)
                top_k code query e) as [e' E]; [by left | exact Hraise |].
    unfold generate_answer, generate_answer_body. by rewrite E. }
  split.
  { intros hist top_k model temp meta code lists context Hl Hc Hs.
    apply all_chunks_Returned in Hl.
    exact (generate_answer_of_pool svc query hist top_k model temp meta
             code _ context Hl Hc Hs). }
  intros H hist top_k model temp meta code found context Hf Hc Hs.
  assert (Hp : all_chunks svc (query :: expand_query svc query 4) top_k code
               = Returned found).
  { rewrite (Hfail H).
    rewrite (all_chunks_Returned svc [query] top_k code [found])
      by (repeat constructor; exact Hf).
    simpl. by rewrite app_nil_r. }
  destruct (generate_answer_of_pool svc query hist top_k model temp meta
              code found context Hp Hc Hs) as (H1 & H2 & H3).
  rewrite (Hfail H) in H3. done.
Qed.

Lemma expand_query_contract_witness :
  let svc :=
    mkServices
      (fun r => Content (String.concat nl
                           ["1. water monitoring duties"; "";
                            "2) reporting of water quality";
                            "3. 'Wasserqualitaet Berichtspflichten'"]))
      (fun _ _ _ => Returned []) in
  let c := mkChunk (Some "c1") (Some "Water quality is reported yearly.")
                   (Some (1 # 4)%Q)
                   (Some (mkMetadata (Some "EU_2000_60.pdf") None)) in
  let down :=
    mkServices
      (fun r => match r with
                | ExpansionRequest _ _ => CallFailure
                | _ => Content "water"
                end)
      (fun q _ _ => if String.eqb q "water reporting"
                    then Returned [c] else Raised ServiceError) in
  (Z.of_nat (length (expand_query svc "water reporting" 2)) <= 2)%Z
  /\ expand_query svc "water reporting" 2
     = ["water monitoring duties"; "2) reporting of water quality"]
  /\ chunks (generate_answer down "water reporting" None 3 "gpt" 0%Q None "0")
     = [c].
Proof.
  intros svc c down.
  destruct (expand_query_contract svc "water reporting" 2 ltac:(lia))
    as (Hlen & Heq & _).
  split; [exact Hlen|]. split; [rewrite Heq; vm_compute; reflexivity|].
  destruct (expand_query_contract down "water reporting" 2 ltac:(lia))
    as (_ & _ & _ & _ & _ & _ & _ & _ & _ & _ & _ & Hdown).
  edestruct (Hdown (or_introl eq_refl) None 3%Z "gpt" 0%Q None "0" [c])
    as (_ & Hc & _);
    [reflexivity | vm_compute; reflexivity | vm_compute; discriminate |].
  rewrite Hc. vm_compute. reflexivity.
Defined.

(** The sentence of the specification does not hold of the code: a line numbered with
    a closing parenthesis comes back with its numbering. *)
Lemma expand_query_numbering_cex :
  let svc :=
    mkServices (fun r => Content "2) reporting of water quality")
               (fun _ _ _ => Returned []) in
  expand_query svc "water reporting" 4 = ["2) reporting of water quality"]
  /\ expand_query svc "water reporting" 4 <> ["reporting of water quality"].
Proof.
  intros svc. split; [vm_compute; reflexivity|].
  vm_compute. discriminate.
Qed.

End RagFacts.

(** * Further properties of the code *)

(** ** The industry taxonomy and its router *)

Module OnaceMore.

Import Py Onace OnaceFacts.

#[local] Opaque ONACE_CATEGORIES.

Lemma parse_onace_codes_subset (onace_string : string) :
  parse_onace_codes onace_string ⊆ catalog_codes.
Proof.
  rewrite parse_onace_codes_refines. unfold spec_parseCodes.
  case_decide as H.
  - apply singleton_subseteq_l, (bool_decide_unpack _). vm_compute. exact I.
  - intros c. rewrite elem_of_list_to_set, list_elem_of_In, filter_In.
    rewrite bool_decide_eq_true. tauto.
Qed.

Lemma parse_onace_codes_nonempty (onace_string : string) :
  parse_onace_codes onace_string <> ∅.
Proof.
  rewrite parse_onace_codes_refines. unfold spec_parseCodes.
  case_decide as H; [|tauto]. apply non_empty_singleton_L.
Qed.

(** X1: whatever the input, [parse_onace_codes] returns a set that is not
    empty and holds codes of the catalog only. *)
Theorem parse_onace_codes_valid :
  forall onace_string : string,
    parse_onace_codes onace_string <> ∅
    /\ parse_onace_codes onace_string ⊆ dom ONACE_CATEGORIES
    /\ Forall (fun code => is_Some (get_category code))
              (elements (parse_onace_codes onace_string)).
Proof.
  intros s. split; [apply parse_onace_codes_nonempty|].
  rewrite dom_ONACE_CATEGORIES. split; [apply parse_onace_codes_subset|].
  apply Forall_forall. intros code Hc. apply elem_of_elements in Hc.
  apply elem_of_dom. rewrite dom_ONACE_CATEGORIES.
  by eapply parse_onace_codes_subset.
Qed.

Lemma names_loop (codes : list string) (names : gmap string string) :
  exists names',
    fold_left names_step codes (Returned names) = Returned names'
    /\ forall k,
         names' !! k =
         if decide (k ∈ codes /\ k ∈ catalog_codes)
         then name_english <$> ONACE_CATEGORIES !! k
         else names !! k.
Proof.
  revert names. induction codes as [|code codes IH]; intros names.
  - exists names. split; [reflexivity|]. intros k.
    rewrite decide_False; [done|]. intros [H _]. by apply elem_of_nil in H.
  - cbn [fold_left]. unfold names_step at 2. cbn [mbind outcome_bind bind].
    rewrite in_catalog_spec. unfold mret, outcome_ret.
    case_bool_decide as Hc.
    + assert (Hs : is_Some (ONACE_CATEGORIES !! code)).
      { apply elem_of_dom. by rewrite dom_ONACE_CATEGORIES. }
      destruct Hs as [category Hcat]. rewrite Hcat.
      destruct (IH (<[code := name_english category]> names))
        as (names' & -> & Hl).
      exists names'. split; [reflexivity|]. intros k. rewrite Hl.
      destruct (decide (k = code)) as [->|Hne].
      * rewrite lookup_insert_eq, Hcat. cbn [fmap option_fmap option_map].
        rewrite (decide_True (P := code ∈ code :: codes /\ _))
          by (split; [left | done]).
        by case_decide.
      * rewrite lookup_insert_ne by done.
        apply decide_ext. rewrite elem_of_cons. naive_solver.
    + destruct (IH names) as (names' & -> & Hl).
      exists names'. split; [reflexivity|]. intros k. rewrite Hl.
      apply decide_ext. rewrite elem_of_cons.
      split; [naive_solver|]. intros [[->|?] ?]; [done | by split].
Qed.

Lemma get_category_names_lookup :
  forall codes : gset string,
    exists names,
      get_category_names codes = Returned names
      /\ dom names = codes ∩ dom ONACE_CATEGORIES
      /\ forall code,
           names !! code =
           if decide (code ∈ codes)
           then name_english <$> get_category code else None.
Proof.
  intros codes. unfold get_category_names.
  destruct (names_loop (elements codes) ∅) as (names & Hn & Hl).
  exists names. split; [exact Hn|].
  assert (Hlk : forall code,
             names !! code =
             if decide (code ∈ codes)
             then name_english <$> get_category code else None).
  { intros code. rewrite Hl, lookup_empty. unfold get_category.
    destruct (decide (code ∈ codes)) as [Hin|Hin].
    - case_decide as H; [done|].
      assert (Hno : code ∉ catalog_codes)
        by (intros ?; apply H; split; [by apply elem_of_elements | done]).
      rewrite <- dom_ONACE_CATEGORIES in Hno.
      apply not_elem_of_dom in Hno. by rewrite Hno.
    - rewrite decide_False; [done|]. intros [H _].
      by apply elem_of_elements in H. }
  split; [|exact Hlk].
  apply set_eq. intros code.
  rewrite elem_of_dom, Hlk, elem_of_intersection, elem_of_dom.
  unfold get_category. case_decide as Hin.
  - rewrite fmap_is_Some. tauto.
  - split; [by intros [? ?] | tauto].
Qed.

(** X2: [get_category_names] never raises; it names exactly the codes of
    the given set that the catalog knows, each with its English name, and
    leaves the unknown codes out. *)
Theorem get_category_names_spec :
  forall codes : gset string,
    exists names,
      get_category_names codes = Returned names
      /\ dom names = codes ∩ dom ONACE_CATEGORIES
      /\ forall code,
           names !! code =
           if decide (code ∈ codes)
           then name_english <$> get_category code else None.
Proof. exact get_category_names_lookup. Qed.

(** X3: the route [parse-codes] never fails: for every input it answers
    with the input itself, a list of codes that is not empty and has no
    repetition, and a name for each of these codes and for no other key. *)
Theorem parse_route_names_all_codes :
  forall onace_string : string,
    exists reply,
      OnaceRouter.parse_onace_codes onace_string = Returned reply
      /\ OnaceRouter.original_string reply = onace_string
      /\ OnaceRouter.codes reply <> []
      /\ NoDup (OnaceRouter.codes reply)
      /\ (forall code, code ∈ OnaceRouter.codes reply
                       <-> code ∈ parse_onace_codes onace_string)
      /\ dom (OnaceRouter.names reply)
         = list_to_set (OnaceRouter.codes reply).
Proof.
  intros s. unfold OnaceRouter.parse_onace_codes.
  destruct (get_category_names_lookup (parse_onace_codes s))
    as (names & -> & Hdom & _).
  eexists. split; [reflexivity|]. cbn [OnaceRouter.original_string
    OnaceRouter.codes OnaceRouter.names].
  split; [reflexivity|]. split.
  { intros E. apply elements_empty_inv in E. apply leibniz_equiv in E.
    by apply (parse_onace_codes_nonempty s). }
  split; [apply NoDup_elements|]. split; [intros code; apply elem_of_elements|].
  rewrite Hdom, list_to_set_elements_L, dom_ONACE_CATEGORIES.
  pose proof (parse_onace_codes_subset s). set_solver.
Qed.

Lemma category_code_is_key :
  map_Forall (fun key category => code category = key) ONACE_CATEGORIES.
Proof. apply (bool_decide_unpack _). vm_compute. exact I. Qed.

(** X4: the route of one category answers with the stored category, whose
    code is the code asked for, exactly for the codes of the catalog, and
    with the error message naming the code for any other string. *)
Theorem get_onace_category_found_iff :
  forall code : string,
    match OnaceRouter.get_onace_category code with
    | OnaceRouter.Found c german english described =>
        code ∈ catalog_codes /\ c = code
        /\ get_category code
           = Some (mkOnaceCategory c german english described)
    | OnaceRouter.NotFound error =>
        (code ∉ catalog_codes)
        /\ error = String.append "Category " (String.append code " not found")
    end.
Proof.
  intros code. unfold OnaceRouter.get_onace_category, get_category.
  destruct (ONACE_CATEGORIES !! code) as [category|] eqn:E.
  - split; [|split].
    + rewrite <- dom_ONACE_CATEGORIES. apply elem_of_dom. eauto.
    + exact (category_code_is_key _ _ E).
    + by destruct category.
  - split; [|reflexivity].
    rewrite <- dom_ONACE_CATEGORIES. by apply not_elem_of_dom.
Qed.

(** *** Code strings written with commas *)

Lemma split_no_separator (sep : ascii) (s : string) :
  Str.contains sep s = false -> Str.split sep s = [s].
Proof.
  induction s as [|c s IH]; simpl; [done|].
  intros [Hc Hs]%orb_false_iff. by rewrite Hc, (IH Hs).
Qed.

Lemma split_append_separator (sep : ascii) (s t : string) :
  Str.contains sep s = false ->
  Str.split sep (String.append s (String sep t)) = s :: Str.split sep t.
Proof.
  induction s as [|c s IH]; simpl.
  - by rewrite Ascii.eqb_refl.
  - intros [Hc Hs]%orb_false_iff. by rewrite Hc, (IH Hs).
Qed.

Lemma split_join_comma_space (a : string) (l : list string) :
  Forall (fun s => Str.contains "," s = false) (a :: l) ->
  Str.split "," (Str.join ", " (a :: l)) = a :: List.map (String " ") l.
Proof.
  revert a. induction l as [|b l IH]; intros a Hall.
  - apply split_no_separator. by apply Forall_inv in Hall.
  - apply Forall_cons in Hall as [Ha Hall].
    change (Str.join ", " (a :: b :: l))
      with (String.append a (String "," (String " " (Str.join ", " (b :: l))))).
    rewrite split_append_separator by done. f_equal.
    cbn [Str.split]. change (Ascii.eqb " " ",") with false.
    cbv iota. by rewrite (IH b Hall).
Qed.

Lemma strip_leading_space (s : string) :
  Str.strip (String " " s) = Str.strip s.
Proof. reflexivity. Qed.

Lemma catalog_code_plain (code : string) :
  code ∈ catalog_codes ->
  Str.contains "," code = false /\ Str.strip code = code.
Proof.
  unfold catalog_codes. rewrite elem_of_list_to_set. intros Hin.
  repeat (apply elem_of_cons in Hin as [->|Hin]; [by vm_compute|]).
  by apply elem_of_nil in Hin.
Qed.

(** X5: a code string written as the mapping of the documents writes them,
    codes of the catalog joined by a comma and a space, is parsed back to
    exactly these codes. *)
Theorem parse_join_round_trip :
  forall codes : list string,
    codes <> [] ->
    Forall (fun code => code ∈ catalog_codes) codes ->
    parse_onace_codes (Str.join ", " codes) = list_to_set codes.
Proof.
  intros [|a l] Hne Hall; [done|]. clear Hne.
  assert (Hplain : Forall (fun s => Str.contains "," s = false) (a :: l)).
  { eapply Forall_impl; [exact Hall|]. intros c Hc.
    by apply catalog_code_plain. }
  assert (Hstrip : List.map Str.strip (a :: List.map (String " ") l) = a :: l).
  { cbn [List.map].
    rewrite (proj2 (catalog_code_plain a (Forall_inv Hall))). f_equal.
    apply Forall_inv_tail in Hall. clear -Hall.
    induction Hall as [|c l' Hc _ IH]; [done|].
    cbn [List.map]. rewrite strip_leading_space, IH.
    by rewrite (proj2 (catalog_code_plain c Hc)). }
  rewrite parse_onace_codes_refines. unfold spec_parseCodes.
  rewrite split_join_comma_space, Hstrip by done.
  assert (Hvalid : List.filter (fun t => bool_decide (t ∈ catalog_codes)) (a :: l)
                   = a :: l).
  { clear -Hall. induction Hall as [|c l' Hc _ IH]; [done|].
    cbn [List.filter]. by rewrite bool_decide_eq_true_2, IH. }
  rewrite Hvalid.
  assert (Ha : a ∈ catalog_codes) by (by apply Forall_inv in Hall).
  rewrite decide_False; [done|].
  intros [E|[E|E]].
  - pose proof (split_join_comma_space a l Hplain) as Hs. rewrite E in Hs.
    injection Hs as <- _. by apply empty_not_in_catalog.
  - pose proof (split_join_comma_space a l Hplain) as Hs. rewrite E in Hs.
    injection Hs as <- _. revert Ha. apply (bool_decide_unpack _).
    vm_compute. exact I.
  - set_solver.
Qed.

Lemma parse_join_round_trip_witness :
  parse_onace_codes "A, B, D, C, E, F" = {[ "A"; "B"; "C"; "D"; "E"; "F" ]}.
Proof.
  refine (eq_trans
            (parse_join_round_trip ["A"; "B"; "D"; "C"; "E"; "F"] _ _) _).
  - discriminate.
  - apply (bool_decide_unpack _). vm_compute. exact I.
  - vm_compute. reflexivity.
Defined.

(** *** The filter of the documents *)

Lemma filter_sublist {A} (f : A -> bool) (l : list A) :
  sublist (List.filter f l) l.
Proof.
  induction l as [|a l IH]; simpl; [done|].
  destruct (f a); [by apply sublist_skip | by apply sublist_cons].
Qed.

Lemma filter_twice {A} (f g : A -> bool) (l : list A) :
  (forall a, g a = true -> f a = true) ->
  List.filter g (List.filter f l) = List.filter g l.
Proof.
  intros H. induction l as [|a l IH]; simpl; [done|].
  destruct (f a) eqn:Ef; simpl; rewrite IH; [done|].
  destruct (g a) eqn:Eg; [|done]. apply H in Eg. congruence.
Qed.

Lemma filter_sublist_weaker {A} (f g : A -> bool) (l : list A) :
  (forall a, g a = true -> f a = true) ->
  sublist (List.filter g l) (List.filter f l).
Proof.
  intros H. rewrite <- (filter_twice f g l H). apply filter_sublist.
Qed.

Lemma relevant_to_general_is_relevant (codes : gset string) (user : string) :
  is_document_relevant codes "0" = true ->
  is_document_relevant codes user = true.
Proof. rewrite !is_document_relevant_true. tauto. Qed.

(** X6: [get_relevant_documents] keeps documents of its input in their
    order, without adding or changing any, and filtering a second time for
    the same user code changes nothing. *)
Theorem get_relevant_documents_idempotent :
  forall (documents : list document) (user_onace_code : string),
    sublist (get_relevant_documents documents user_onace_code) documents
    /\ get_relevant_documents
         (get_relevant_documents documents user_onace_code) user_onace_code
       = get_relevant_documents documents user_onace_code.
Proof.
  intros documents u. rewrite !get_relevant_documents_filter.
  split; [apply filter_sublist | by apply filter_twice].
Qed.

(** X7: a document without the key [onace_codes] counts as general: it is
    kept for every user code. *)
Theorem document_without_codes_kept :
  forall (documents : list document) (doc : document)
         (user_onace_code : string),
    doc ∈ documents ->
    doc !! "onace_codes" = None ->
    doc ∈ get_relevant_documents documents user_onace_code.
Proof.
  intros documents doc u Hin Hnone.
  rewrite get_relevant_documents_filter, list_elem_of_In, filter_In.
  split; [by apply list_elem_of_In|].
  unfold doc_onace_string. rewrite Hnone. reflexivity.
Qed.

Lemma document_without_codes_kept_witness :
  let doc : document := {[ "filename" := "EU_2019_640_GreenDeal.pdf" ]} in
  let other : document :=
    {[ "filename" := "EU_2006_1907_REACH.pdf"; "onace_codes" := "C" ]} in
  doc ∈ get_relevant_documents [other; doc] "H".
Proof.
  intros doc other.
  apply (document_without_codes_kept [other; doc] doc "H").
  - right. left.
  - reflexivity.
Defined.

(** X8: what the general user code "0" is shown, every user is shown: the
    documents kept for "0" are kept, in the same order, for any user code,
    and filtering for "0" after filtering for a user is filtering for "0". *)
Theorem general_documents_for_everyone :
  forall (documents : list document) (user_onace_code : string),
    sublist (get_relevant_documents documents "0")
            (get_relevant_documents documents user_onace_code)
    /\ get_relevant_documents
         (get_relevant_documents documents user_onace_code) "0"
       = get_relevant_documents documents "0".
Proof.
  intros documents u. rewrite !get_relevant_documents_filter. split.
  - apply filter_sublist_weaker. intros doc.
    apply relevant_to_general_is_relevant.
  - apply filter_twice. intros doc. apply relevant_to_general_is_relevant.
Qed.

End OnaceMore.

(** ** The link detector *)

Module LinkMore.

Import Py Data LinkDetector LinkFacts.

Lemma dom_industry_contexts :
  dom industry_contexts = dom Onace.ONACE_CATEGORIES.
Proof. vm_compute. reflexivity. Qed.

(** X9: [_get_industry_context] has a description of its own for exactly
    the codes of the ONACE catalog; for any other code it answers
    "Industry code <code> - Unknown sector". *)
Theorem industry_context_catalog :
  forall onace_code : string,
    match Onace.get_category onace_code with
    | Some _ =>
        industry_contexts !! onace_code
        = Some (_get_industry_context onace_code)
    | None =>
        industry_contexts !! onace_code = None
        /\ _get_industry_context onace_code
           = String.append "Industry code "
               (String.append onace_code " - Unknown sector")
    end.
Proof.
  intros code. unfold Onace.get_category, _get_industry_context.
  destruct (Onace.ONACE_CATEGORIES !! code) as [category|] eqn:E.
  - assert (Hs : is_Some (industry_contexts !! code)).
    { apply elem_of_dom. rewrite dom_industry_contexts.
      apply elem_of_dom. eauto. }
    destruct Hs as [d ->]. reflexivity.
  - assert (Hn : industry_contexts !! code = None).
    { apply not_elem_of_dom. rewrite dom_industry_contexts.
      by apply not_elem_of_dom. }
    rewrite Hn. by split.
Qed.

Lemma lower_char_idempotent (c : ascii) :
  Str.lower_char (Str.lower_char c) = Str.lower_char c.
Proof.
  destruct c as [[] [] [] [] [] [] [] []]; vm_compute; reflexivity.
Qed.

Lemma lower_idempotent (s : string) : Str.lower (Str.lower s) = Str.lower s.
Proof.
  induction s as [|c s IH]; simpl; [done|].
  by rewrite lower_char_idempotent, IH.
Qed.

Lemma get_links_for_topic_lookup (topic : string) :
  get_links_for_topic topic
  = Returned (option_list (manager_links !! Str.lower topic)).
Proof.
  unfold get_links_for_topic.
  destruct (manager_links !! Str.lower topic) as [url|] eqn:E.
  - by rewrite bool_decide_eq_true_2 by eauto.
  - rewrite bool_decide_eq_false_2; [done|]. by intros [? ?].
Qed.

(** X10: [get_links_for_topic] never raises and returns at most one link;
    it returns a link exactly when the topic, put in lower case, is
    "water", "industry" or "nature", and it gives the same answer for a
    topic and for its lower-case form.  It does not trim the topic. *)
Theorem get_links_for_topic_spec :
  forall topic : string,
    exists links,
      get_links_for_topic topic = Returned links
      /\ (length links <= 1)%nat
      /\ (links <> [] <-> Str.lower topic ∈ topics)
      /\ get_links_for_topic (Str.lower topic) = Returned links
      /\ get_links_for_topic (String.append " " (Str.lower topic))
         = Returned [].
Proof.
  intros topic. exists (option_list (manager_links !! Str.lower topic)).
  split; [apply get_links_for_topic_lookup|].
  split; [destruct (manager_links !! _); simpl; lia|].
  split.
  { rewrite <- (elem_of_list_to_set (C := gset string)).
    rewrite <- dom_manager_links, elem_of_dom.
    destruct (manager_links !! _); simpl.
    - split; [eauto | discriminate].
    - split; [done | by intros [? ?]]. }
  split; [by rewrite get_links_for_topic_lookup, lower_idempotent|].
  rewrite get_links_for_topic_lookup.
  assert (Hn : manager_links
               !! Str.lower (String.append " " (Str.lower topic)) = None).
  { apply not_elem_of_dom. rewrite dom_manager_links, elem_of_list_to_set.
    unfold topics. cbn [String.append Str.lower].
    change (Str.lower_char " ") with " "%char.
    intros H. repeat (apply elem_of_cons in H as [H|H]; [discriminate|]).
    by apply elem_of_nil in H. }
  by rewrite Hn.
Qed.

(** X11: the link chosen through the classifier is the link that
    [get_links_for_topic] gives for the trimmed reply of the model; a reply
    without content and a failed call give no link. *)
Theorem get_relevant_links_by_topic :
  forall (svc : services) (query : string) (chunks : list Chunk)
         (user_onace_code : string),
    Returned (get_relevant_links svc query chunks user_onace_code)
    = match chat svc (ClassificationRequest query
                        (_get_industry_context user_onace_code)
                        (context_text chunks)) with
      | Content reply => get_links_for_topic (Str.strip reply)
      | _ => Returned []
      end.
Proof.
  intros svc query chunks code.
  unfold get_relevant_links, links_body.
  rewrite classify_query_intent_spec.
  destruct (chat svc _) as [| |reply]; [reflexivity..|].
  rewrite get_links_for_topic_lookup. cbn [classification_of].
  case_bool_decide as Ht.
  - rewrite (topic_truthy _ Ht).
    destruct (topic_has_link _ Ht) as [url Hurl]. rewrite Hurl.
    by rewrite bool_decide_eq_true_2 by eauto.
  - assert (Hn : manager_links !! Str.lower (Str.strip reply) = None).
    { apply not_elem_of_dom. rewrite dom_manager_links.
      by rewrite elem_of_list_to_set. }
    by rewrite Hn.
Qed.

Lemma length_take_le (n : nat) (s : string) :
  (String.length (Str.take n s) <= n)%nat.
Proof.
  revert s. induction n as [|n IH]; intros [|c s]; simpl; try lia.
  specialize (IH s). lia.
Qed.

Lemma length_string_append (a b : string) :
  String.length (String.append a b)
  = (String.length a + String.length b)%nat.
Proof. induction a as [|c a IH]; simpl; [done|]. by rewrite IH. Qed.

(** X12: the context given to the classifier is bounded: it is made of the
    first three chunks only, of at most 200 characters of each, so it has at
    most 602 characters whatever the retrieval returned; a chunk without
    text contributes the empty text. *)
Theorem context_text_bounded :
  forall chunks : list Chunk,
    (String.length (context_text chunks) <= 602)%nat
    /\ context_text chunks = context_text (firstn 3 chunks)
    /\ (forall a b c rest,
          chunks = a :: b :: c :: rest ->
          context_text chunks
          = String.concat " "
              [Str.take 200 (default "" (text a));
               Str.take 200 (default "" (text b));
               Str.take 200 (default "" (text c))]).
Proof.
  intros chunks. split; [|split].
  - assert (Hb : forall ch : Chunk,
               (String.length (Str.take 200 (default "" (text ch))) <= 200)%nat)
      by (intros ch; apply length_take_le).
    destruct chunks as [|a [|b [|c rest]]];
      cbn [context_text firstn List.map Str.join];
      try change (firstn 0 rest) with (@nil Chunk);
      cbn [List.map Str.join];
      rewrite ?length_string_append; cbn [String.length];
      try pose proof (Hb a); try pose proof (Hb b); try pose proof (Hb c);
      lia.
  - by destruct chunks as [|a [|b [|c rest]]].
  - intros a b c rest ->. reflexivity.
Qed.

Lemma context_text_bounded_witness :
  let long := mkChunk None (Some (Str.join "" (repeat "water " 50)))
                      None None in
  let none := mkChunk None None None None in
  context_text [long; none; long; long; long]
  = String.concat " "
      [Str.take 200 (default "" (text long)); "";
       Str.take 200 (default "" (text long))].
Proof.
  intros long none.
  exact (proj2 (proj2 (context_text_bounded [long; none; long; long; long]))
           long none long [long; long] eq_refl).
Defined.

End LinkMore.

(** ** Answer generation *)

Module RagMore.

Import Py Data Rag RagFacts.

(** *** [format_context] *)

Lemma format_chunks_Returned (i : nat) (chunks : list Chunk) :
  Forall (fun chunk => is_Some (metadata chunk) /\ is_Some (text chunk))
         chunks ->
  exists formatted,
    format_chunks i chunks = Returned formatted
    /\ length formatted = length chunks.
Proof.
  intros H. revert i. induction H as [|c l [[m Hm] [t Ht]] _ IH]; intros i.
  - by exists [].
  - destruct (IH (S i)) as (f & Hf & Hlen).
    eexists. cbn [format_chunks]. unfold format_chunk. rewrite Hm, Ht.
    cbn [mbind outcome_bind bind]. rewrite Hf.
    cbn [mbind outcome_bind bind]. split; [reflexivity|].
    simpl. by rewrite Hlen.
Qed.

(** X13: [format_context] returns the empty text for no chunk, and it
    returns a context exactly when every chunk has a [metadata] dictionary
    and a text; the file name may be absent.  One chunk without metadata or
    without text makes it raise. *)
Theorem format_context_succeeds_iff :
  forall chunks : list Chunk,
    ((exists context, format_context chunks = Returned context)
     <-> Forall (fun chunk => is_Some (metadata chunk)
                              /\ is_Some (text chunk)) chunks)
    /\ ((exists e, format_context chunks = Raised e)
        <-> ~ Forall (fun chunk => is_Some (metadata chunk)
                                   /\ is_Some (text chunk)) chunks)
    /\ format_context [] = Returned "".
Proof.
  intros chunks.
  assert (Hiff : (exists context, format_context chunks = Returned context)
                 <-> Forall (fun chunk => is_Some (metadata chunk)
                                          /\ is_Some (text chunk)) chunks).
  { split.
    - intros [context H]. by eapply format_context_fields.
    - intros H. destruct chunks as [|c l]; [by exists ""|].
      destruct (format_chunks_Returned 0 _ H) as (f & Hf & _).
      unfold format_context. rewrite Hf. by eexists. }
  split; [exact Hiff|]. split; [|reflexivity].
  rewrite <- Hiff. destruct (format_context chunks) as [context|e].
  - split; [by intros [? ?] | intros H; exfalso; apply H; eauto].
  - split; [by intros _ [? ?] | eauto].
Qed.



(** *** The ranking at its bounds *)

Lemma vsme_limit_nonpositive (top_k : Z) :
  (top_k <= 1)%Z -> vsme_limit top_k = 1%Z.
Proof.
  intros H. unfold vsme_limit.
  assert (top_k / 2 < 1)%Z by (apply Z.div_lt_upper_bound; lia). lia.
Qed.

(** X15: with [top_k = 1] the whole result is the quota of the VSME
    chunks: the ranking is the best VSME chunk alone and never holds a
    chunk of another document, so a pool without VSME chunk gives no
    evidence however many other chunks were retrieved. *)
Theorem top_one_is_vsme_only :
  forall unique_chunks : list Chunk,
    top_unique_chunks unique_chunks 1
    = firstn 1 (sort_by_score (List.filter vsme_flag unique_chunks))
    /\ Forall (fun chunk => vsme_flag chunk = true)
              (top_unique_chunks unique_chunks 1)
    /\ (List.filter vsme_flag unique_chunks = [] <->
        top_unique_chunks unique_chunks 1 = []).
Proof.
  intros u.
  assert (E : top_unique_chunks u 1
              = firstn 1 (sort_by_score (List.filter vsme_flag u))).
  { unfold top_unique_chunks. rewrite vsme_limit_nonpositive by lia.
    rewrite !slice_to_nonneg by lia. cbn [Z.sub Z.to_nat Z.add Z.opp Z.pos_sub].
    change (Z.to_nat 0) with 0%nat. change (Z.to_nat 1) with 1%nat.
    by rewrite firstn_O, app_nil_r. }
  split; [exact E|]. split.
  - rewrite E. apply Forall_forall. intros c Hc.
    apply elem_of_take in Hc as (i & Hc & _).
    apply list_elem_of_lookup_2 in Hc.
    rewrite sort_by_score_perm in Hc.
    apply list_elem_of_In, filter_In in Hc. tauto.
  - rewrite E. split.
    + intros ->. reflexivity.
    + intros H. destruct (List.filter vsme_flag u) as [|c l] eqn:Ef; [done|].
      exfalso. pose proof (sort_by_score_perm (c :: l)) as Hp.
      destruct (sort_by_score (c :: l)) as [|c' l']; [|discriminate].
      by apply Permutation_nil_cons in Hp.
Qed.

(** X16: a [top_k] of zero or less does not give an empty ranking.  The
    quota of the VSME chunks is still one, and the slice of the other
    chunks, whose bound is then negative, drops their last [1 - top_k]
    chunks and keeps the rest, so the result can be longer than [top_k]. *)
Theorem nonpositive_top_k_ranking :
  forall (unique_chunks : list Chunk) (top_k : Z),
    (top_k <= 0)%Z ->
    let primary := sort_by_score (List.filter vsme_flag unique_chunks) in
    let other :=
      sort_by_score
        (List.filter (fun chunk => negb (vsme_flag chunk)) unique_chunks) in
    top_unique_chunks unique_chunks top_k
    = (firstn 1 primary
       ++ firstn (length other - Z.to_nat (1 - top_k)) other)%list.
Proof.
  intros u top_k Hk primary other. unfold top_unique_chunks.
  fold primary other. rewrite vsme_limit_nonpositive by lia.
  rewrite slice_to_nonneg by lia. f_equal.
  unfold slice_to. rewrite (proj2 (Z.leb_gt 0 (top_k - 1))) by lia.
  do 2 f_equal. lia.
Qed.

Lemma nonpositive_top_k_ranking_witness :
  let v := mkChunk None (Some "v") (Some (1 # 2)%Q)
                   (Some (mkMetadata (Some "vsme.pdf") (Some true))) in
  let o (t : string) (s : Q) :=
    mkChunk None (Some t) (Some s) (Some (mkMetadata (Some "csrd.pdf") None)) in
  top_unique_chunks [o "c" 3%Q; v; o "a" 1%Q; o "b" 2%Q] 0
  = [v; o "a" 1%Q; o "b" 2%Q].
Proof.
  intros v o.
  refine (eq_trans
            (nonpositive_top_k_ranking [o "c" 3%Q; v; o "a" 1%Q; o "b" 2%Q]
               0 _) _).
  - lia.
  - vm_compute. reflexivity.
Defined.

(** *** Deduplication followed by ranking *)

Lemma filter_sorted (f : Chunk -> bool) (l : list Chunk) :
  sorted_by_score l -> sort_by_score (List.filter f l) = List.filter f l.
Proof.
  intros H. apply sort_by_score_id.
  eapply sorted_by_score_sublist; [apply OnaceMore.filter_sublist | exact H].
Qed.

(** X17: the deduplicated pool is already in ascending order of score, so
    the two sorts of the ranking change nothing on it: the ranking of a
    deduplicated pool is a slice of its VSME chunks followed by a slice of
    its other chunks, both in the order of the deduplication. *)
Theorem ranking_of_deduplicated_pool :
  forall (all_chunks : list Chunk) (top_k : Z),
    let pool := unique_chunks all_chunks in
    sorted_by_score pool
    /\ sort_by_score (List.filter vsme_flag pool) = List.filter vsme_flag pool
    /\ sort_by_score (List.filter (fun chunk => negb (vsme_flag chunk)) pool)
       = List.filter (fun chunk => negb (vsme_flag chunk)) pool
    /\ top_unique_chunks pool top_k
       = (slice_to (List.filter vsme_flag pool) (vsme_limit top_k)
          ++ slice_to (List.filter (fun chunk => negb (vsme_flag chunk)) pool)
                      (top_k - vsme_limit top_k))%list.
Proof.
  intros X top_k pool.
  pose proof (unique_chunks_sorted X) as Hs. fold pool in Hs.
  split; [exact Hs|].
  split; [by apply filter_sorted|]. split; [by apply filter_sorted|].
  unfold top_unique_chunks. by rewrite !filter_sorted.
Qed.

End RagMore.

(** ** The whole request *)

Module PipelineMore.

Import Py Data Rag RagFacts.

Lemma all_chunks_ext (svc svc' : services) (search_queries : list string)
    (top_k : Z) (user_onace_code : string) :
  (forall q, search_all_documents svc q top_k user_onace_code
             = search_all_documents svc' q top_k user_onace_code) ->
  all_chunks svc search_queries top_k user_onace_code
  = all_chunks svc' search_queries top_k user_onace_code.
Proof.
  intros H. unfold all_chunks. f_equal. f_equal.
  apply map_ext. intros q. apply H.
Qed.

(** X18: the link classification is isolated from the rest of the request.
    Two runs whose services differ only in the replies to the classification
    request return the same answer, chunks, expanded queries, sources and
    success flag; only [relevant_links] may differ. *)
Theorem classifier_changes_links_only :
  forall (svc svc' : services) (query : string)
         (conversation_history : option string) (top_k : Z) (model : string)
         (temperature : Q) (meta_information : option string)
         (user_onace_code : string),
    (forall q k code, search_all_documents svc q k code
                      = search_all_documents svc' q k code) ->
    (forall q n, chat svc (ExpansionRequest q n)
                 = chat svc' (ExpansionRequest q n)) ->
    (forall m t meta history context q,
        chat svc (SynthesisRequest m t meta history context q)
        = chat svc' (SynthesisRequest m t meta history context q)) ->
    let r := generate_answer svc query conversation_history top_k model
               temperature meta_information user_onace_code in
    let r' := generate_answer svc' query conversation_history top_k model
                temperature meta_information user_onace_code in
    answer r = answer r'
    /\ chunks r = chunks r'
    /\ expanded_queries r = expanded_queries r'
    /\ sources r = sources r'
    /\ success r = success r'.
Proof.
  intros svc svc' query hist top_k model temp meta code Hsearch Hexp Hsyn r r'.
  assert (He : expand_query svc query 4 = expand_query svc' query 4)
    by (by rewrite !expand_query_spec, Hexp).
  unfold r, r', generate_answer, generate_answer_body.
  rewrite <- He.
  rewrite <- (all_chunks_ext svc svc') by (intros q; apply Hsearch).
  destruct (all_chunks svc _ _ _) as [pool|e]; [|by repeat split].
  cbn [mbind outcome_bind bind].
  destruct (format_context _) as [context|e]; [|by repeat split].
  cbn [mbind outcome_bind bind]. unfold create. rewrite <- Hsyn.
  destruct (chat svc _); by repeat split.
Qed.

Lemma classifier_changes_links_only_witness :
  let c := mkChunk (Some "c1") (Some "Water quality is reported yearly.")
                   (Some (1 # 4)%Q)
                   (Some (mkMetadata (Some "EU_2000_60.pdf") None)) in
  let replies (classified : completion) :=
    fun r => match r with
             | ExpansionRequest _ _ => Content "1. water monitoring duties"
             | SynthesisRequest _ _ _ _ _ _ => Content "Yearly."
             | ClassificationRequest _ _ _ => classified
             end in
  let search := fun (_ : string) (_ : Z) (_ : string) => Returned [c] in
  let linked := mkServices (replies (Content "water")) search in
  let unlinked := mkServices (replies CallFailure) search in
  success (generate_answer unlinked "water reporting" None 3 "gpt" 0%Q None
                           "0") = true
  /\ chunks (generate_answer unlinked "water reporting" None 3 "gpt" 0%Q None
                             "0") = [c].
Proof.
  intros c replies search linked unlinked.
  destruct (classifier_changes_links_only linked unlinked "water reporting"
              None 3 "gpt" 0%Q None "0")
    as (_ & Hc & _ & _ & Hs); [reflexivity..|].
  rewrite <- Hs, <- Hc. split; vm_compute; reflexivity.
Defined.

Lemma NoDup_fmap_submseteq {A B} (f : A -> B) (l1 l2 : list A) :
  l1 ⊆+ l2 -> NoDup (f <$> l2) -> NoDup (f <$> l1).
Proof.
  intros Hsub Hnd. apply (fmap_submseteq f) in Hsub.
  apply submseteq_Permutation in Hsub as [k Hk].
  rewrite Hk in Hnd. by apply NoDup_app in Hnd as [? _].
Qed.

Lemma length_top_unique_chunks (u : list Chunk) (top_k : Z) :
  (1 <= top_k)%Z -> (Z.of_nat (length (top_unique_chunks u top_k)) <= top_k)%Z.
Proof.
  intros Hk. pose proof (vsme_limit_bounds top_k Hk) as Hq.
  unfold top_unique_chunks. rewrite !slice_to_nonneg by lia.
  rewrite length_app, !length_take. lia.
Qed.

Lemma length_get_relevant_links (svc : services) (query : string)
    (chunks : list Chunk) (user_onace_code : string) :
  (length (LinkDetector.get_relevant_links svc query chunks user_onace_code)
   <= 1)%nat.
Proof.
  unfold LinkDetector.get_relevant_links, LinkDetector.links_body.
  destruct (LinkDetector._classify_query_intent _ _ _ _) as [topic|];
    [|simpl; lia].
  destruct (Str.truthy topic && _); [|simpl; lia].
  destruct (LinkDetector.manager_links !! topic); simpl; lia.
Qed.

Lemma length_expand_query (svc : services) (query : string) (n : Z) :
  (0 <= n)%Z -> (Z.of_nat (length (expand_query svc query n)) <= n)%Z.
Proof.
  intros Hn. rewrite expand_query_spec.
  destruct (chat svc _); [simpl; lia.. | by apply length_slice_to].
Qed.

(** X19: every result of [generate_answer], the apology included, is well
    formed: it has one source for each chunk, no two of its chunks have the
    same text, each chunk has metadata and a text, there are at most four
    expanded queries and at most one link, and for [top_k >= 1] there are at
    most [top_k] chunks. *)
Theorem generate_answer_well_formed :
  forall (svc : services) (query : string)
         (conversation_history : option string) (top_k : Z) (model : string)
         (temperature : Q) (meta_information : option string)
         (user_onace_code : string),
    let r := generate_answer svc query conversation_history top_k model
               temperature meta_information user_onace_code in
    length (sources r) = length (chunks r)
    /\ NoDup (text_key <$> chunks r)
    /\ Forall (fun chunk => is_Some (metadata chunk) /\ is_Some (text chunk))
              (chunks r)
    /\ (length (expanded_queries r) <= 4)%nat
    /\ (length (relevant_links r) <= 1)%nat
    /\ ((1 <= top_k)%Z -> (Z.of_nat (length (chunks r)) <= top_k)%Z).
Proof.
  intros svc query hist top_k model temp meta code r.
  unfold r, generate_answer, generate_answer_body.
  destruct (all_chunks _ _ _ _) as [pool|e];
    [|simpl; repeat split; try constructor; lia].
  cbn [mbind outcome_bind bind].
  destruct (format_context _) as [context|e] eqn:Ec;
    [|simpl; repeat split; try constructor; lia].
  cbn [mbind outcome_bind bind].
  destruct (create svc _) as [content|e];
    [|simpl; repeat split; try constructor; lia].
  cbn [mbind outcome_bind bind mret outcome_ret sources chunks
       expanded_queries relevant_links].
  split; [by rewrite length_map|]. split.
  { eapply NoDup_fmap_submseteq; [apply top_unique_chunks_submseteq|].
    rewrite unique_chunks_spec. apply first_of_each_text_NoDup. }
  split; [by eapply format_context_fields|].
  split.
  { pose proof (length_expand_query svc query 4 ltac:(lia)). lia. }
  split; [apply length_get_relevant_links|].
  apply length_top_unique_chunks.
Qed.

Lemma generate_answer_well_formed_witness :
  let c (t : string) (s : Q) :=
    mkChunk None (Some t) (Some s) (Some (mkMetadata (Some "vsme.pdf") (Some true))) in
  let svc :=
    mkServices (fun _ => Content "water")
               (fun _ _ _ => Returned [c "a" 1%Q; c "b" 2%Q; c "c" 3%Q]) in
  (Z.of_nat (length (chunks (generate_answer svc "water reporting" None 2
                                             "gpt" 0%Q None "0"))) <= 2)%Z.
Proof.
  intros c svc.
  apply (generate_answer_well_formed svc "water reporting" None 2 "gpt" 0%Q
           None "0"). lia.
Defined.

End PipelineMore.

(** ** Deduplication by chunk id *)

Module DedupMore.

Import Py Data Rag RagFacts.

Lemma first_of_each_id_ext (seen seen' : list string) (l : list Chunk) :
  (forall k, k ∈ seen <-> k ∈ seen') ->
  first_of_each_id seen l = first_of_each_id seen' l.
Proof.
  revert seen seen'. induction l as [|x l IH]; intros seen seen' H; simpl.
  - done.
  - destruct (chunk_id x) as [id|]; [|by apply IH].
    rewrite (bool_decide_ext _ _ (H id)).
    destruct (Str.truthy id && _); [|by apply IH].
    f_equal. apply IH. intros k. rewrite !elem_of_cons. by rewrite H.
Qed.

Lemma id_loop_spec (l : list Chunk) (d : list (string * Chunk)) :
  (fold_left id_step l d).*2 = (d.*2 ++ first_of_each_id d.*1 l)%list.
Proof.
  revert d. induction l as [|x l IH]; intros d; simpl.
  - by rewrite app_nil_r.
  - rewrite IH. unfold id_step.
    destruct (chunk_id x) as [id|]; [|done].
    rewrite dict_has_spec.
    destruct (Str.truthy id && negb (bool_decide (id ∈ d.*1))); [|done].
    rewrite !fmap_app, <- app_assoc. simpl. do 2 f_equal.
    apply first_of_each_id_ext. intros k. simpl. set_solver.
Qed.

Lemma deduplicate_chunks_spec (chunks : list Chunk) :
  deduplicate_chunks chunks = first_of_each_id [] chunks.
Proof. unfold deduplicate_chunks. apply (id_loop_spec _ []). Qed.

Lemma first_of_each_id_sublist (seen : list string) (l : list Chunk) :
  sublist (first_of_each_id seen l) l.
Proof.
  revert seen. induction l as [|x l IH]; intros seen; simpl; [done|].
  destruct (chunk_id x) as [id|]; [|apply sublist_cons, IH].
  destruct (Str.truthy id && _);
    [apply sublist_skip | apply sublist_cons]; apply IH.
Qed.

Lemma first_of_each_id_fresh (seen : list string) (l : list Chunk) (c : Chunk) :
  c ∈ first_of_each_id seen l ->
  exists id, chunk_id c = Some id /\ id <> "" /\ id ∉ seen.
Proof.
  revert seen. induction l as [|x l IH]; intros seen; simpl.
  - by intros ?%elem_of_nil.
  - destruct (chunk_id x) as [id|] eqn:Ex; [|apply IH].
    destruct (Str.truthy id) eqn:Et; simpl; [|apply IH].
    case_bool_decide as Hs; simpl; [apply IH|].
    intros [->|Hc]%elem_of_cons.
    + exists id. repeat split; [done| |done]. intros ->. discriminate.
    + destruct (IH _ Hc) as (id' & H1 & H2 & H3).
      exists id'. repeat split; [done..|]. set_solver.
Qed.

Lemma first_of_each_id_NoDup (seen : list string) (l : list Chunk) :
  NoDup (chunk_id <$> first_of_each_id seen l).
Proof.
  revert seen. induction l as [|x l IH]; intros seen; simpl.
  - constructor.
  - destruct (chunk_id x) as [id|] eqn:Ex; [|apply IH].
    destruct (Str.truthy id && _); [|apply IH].
    rewrite fmap_cons. constructor; [|apply IH].
    intros (c & Hk & Hc)%list_elem_of_fmap.
    destruct (first_of_each_id_fresh _ _ _ Hc) as (id' & H1 & _ & H3).
    rewrite Ex, H1 in Hk. injection Hk as ->. set_solver.
Qed.

Lemma first_of_each_id_id (seen : list string) (l : list Chunk) :
  NoDup (chunk_id <$> l) ->
  (forall c, c ∈ l ->
             exists id, chunk_id c = Some id /\ id <> "" /\ id ∉ seen) ->
  first_of_each_id seen l = l.
Proof.
  revert seen. induction l as [|x l IH]; intros seen Hnd Hs; simpl; [done|].
  rewrite fmap_cons in Hnd. apply NoDup_cons in Hnd as [Hx Hnd].
  destruct (Hs x) as (id & Hid & Hne & Hseen); [by left|].
  rewrite Hid. destruct id as [|a id]; [done|]. cbn [Str.truthy andb].
  rewrite bool_decide_eq_false_2 by done. cbn [negb]. f_equal.
  apply IH; [done|]. intros c Hc.
  destruct (Hs c) as (id' & Hid' & Hne' & Hseen'); [by right|].
  exists id'. repeat split; [done..|].
  rewrite not_elem_of_cons. split; [|done].
  intros ->. apply Hx. rewrite Hid, <- Hid'. by apply list_elem_of_fmap_2.
Qed.

(** X20: [deduplicate_chunks] keeps, in the order of the input, the first
    chunk of each non-empty [chunk_id] and drops every chunk whose id is
    missing or empty.  The kept chunks have distinct ids, a list of chunks
    with distinct non-empty ids is returned whole, and deduplicating twice
    is deduplicating once. *)
Theorem deduplicate_chunks_first_of_each_id :
  forall chunks : list Chunk,
    deduplicate_chunks chunks = first_of_each_id [] chunks
    /\ sublist (deduplicate_chunks chunks) chunks
    /\ Forall (fun chunk => exists id, chunk_id chunk = Some id /\ id <> "")
              (deduplicate_chunks chunks)
    /\ NoDup (chunk_id <$> deduplicate_chunks chunks)
    /\ (NoDup (chunk_id <$> chunks) ->
        Forall (fun chunk => exists id, chunk_id chunk = Some id /\ id <> "")
               chunks ->
        deduplicate_chunks chunks = chunks)
    /\ deduplicate_chunks (deduplicate_chunks chunks)
       = deduplicate_chunks chunks.
Proof.
  intros chunks. rewrite !deduplicate_chunks_spec.
  assert (Hall : Forall (fun chunk => exists id, chunk_id chunk = Some id
                                                 /\ id <> "")
                        (first_of_each_id [] chunks)).
  { apply Forall_forall. intros c Hc.
    destruct (first_of_each_id_fresh _ _ _ Hc) as (id & H1 & H2 & _).
    by exists id. }
  split; [reflexivity|]. split; [apply first_of_each_id_sublist|].
  split; [exact Hall|]. split; [apply first_of_each_id_NoDup|].
  split.
  - intros Hnd Hids. apply first_of_each_id_id; [done|].
    intros c Hc. rewrite Forall_forall in Hids.
    destruct (Hids c Hc) as (id & H1 & H2).
    exists id. repeat split; [done..|apply not_elem_of_nil].
  - apply first_of_each_id_id; [apply first_of_each_id_NoDup|].
    intros c Hc. rewrite Forall_forall in Hall.
    destruct (Hall c Hc) as (id & H1 & H2).
    exists id. repeat split; [done..|apply not_elem_of_nil].
Qed.

Lemma deduplicate_chunks_first_of_each_id_witness :
  let c (id : option string) (t : string) := mkChunk id (Some t) None None in
  deduplicate_chunks [c (Some "a") "one"; c (Some "b") "two"]
  = [c (Some "a") "one"; c (Some "b") "two"]
  /\ deduplicate_chunks [c (Some "a") "one"; c None "two"; c (Some "") "three";
                         c (Some "a") "four"]
     = [c (Some "a") "one"].
Proof.
  intros c. split.
  - apply (proj1 (proj2 (proj2 (proj2 (proj2
             (deduplicate_chunks_first_of_each_id
                [c (Some "a") "one"; c (Some "b") "two"])))))).
    + apply (bool_decide_unpack _). vm_compute. exact I.
    + repeat constructor; eexists; (split; [reflexivity | discriminate]).
  - vm_compute. reflexivity.
Defined.

End DedupMore.
